(** * Pare Email Suite: HTML extraction, sanitising, dashboard and sync pipeline

    A shallow embedding of the parts of the Pare front end that the
    specification speaks about, and of the background pipeline as the
    specification describes it.

    - [JS]: the JavaScript values and browser functions the components call
      (strings as UTF-16 code units, truthiness, [String.prototype.startsWith],
      [atob], [TextDecoder("utf-8")]).
    - [Gmail]: the message payload tree ([payload], [parts], [body.data]).
    - [Stack]: results together with the depth of the recursion that
      computed them.
    - [EmailViewer]: [frontend/src/components/EmailViewer.tsx], lines 1-349.
    - [EmailCard]: the EmailCard component, [extractHtmlFromRawJson] and
      [sanitizeHtml] ([frontend/src/pages/LoginPage.tsx], lines 677-831).
    - [FindHtmlPart]: the search for the HTML part in the words of the
      specification, to compare the two extractors with.
    - [Dashboard]: the DashboardPage component, its [load], its render and
      the Sync Status card ([frontend/src/pages/TasksPage.tsx], lines 150-273).
    - [Pipeline]: the ingestion-and-classification pipeline and the status
      poll of the Job Manager as the specification describes them (the Flask
      back end is not part of the front-end sources).
    - [EasternTime]: [_isEasternDST] and [_getNthSunday] of EmailCard
      ([frontend/src/pages/LoginPage.tsx], lines 313-347).
    - [CardActions]: [handleUnsubscribe] and the sender line of EmailCard, and
      [displaySender] of EmailViewer.
    - [GmailEncoding]: the base64url encoding that the decoders undo.

    Definitions come first, the theorems follow them. *)

From Stdlib Require Import ZArith NArith Ascii String Lia Floats.
From stdpp Require Import gmap strings list pretty.

Set Warnings "-register-all".

(* ===================================================================== *)
(** ** JavaScript strings and the browser's decoders *)
(* ===================================================================== *)

Module JS.
Local Open Scope N_scope.

(** A JavaScript string is a sequence of 16-bit code units. *)
Abbreviation jsstring := (list N).

(** An ASCII literal as a JavaScript string. *)
Definition str (s : string) : jsstring :=
  map N_of_ascii (list_ascii_of_string s).

(** ToBoolean on a [string | null | undefined]: only a non-empty string is
    truthy. *)
Definition truthy (v : option jsstring) : bool :=
  match v with
  | Some (_ :: _) => true
  | _ => false
  end.

(** [a || b] on [string | null]. *)
Definition or_else (a b : option jsstring) : option jsstring :=
  if truthy a then a else b.

(** [s.startsWith(p)]. *)
Fixpoint startsWith (s p : jsstring) : bool :=
  match p, s with
  | [], _ => true
  | _ :: _, [] => false
  | c :: p', d :: s' => (c =? d) && startsWith s' p'
  end.

(** [s.replace(/c/g, r)] for a one-character pattern and replacement. *)
Definition replaceChar (c r : N) (s : jsstring) : jsstring :=
  map (fun u => if u =? c then r else u) s.

(** The base64url alphabet in the standard one: [-] becomes [+], [_] becomes
    [/], every other character stays. *)
Definition urlToStd (c : N) : N :=
  if c =? 45 then 43 else if c =? 95 then 47 else c.

(** ["=".repeat(n)] *)
Definition repeatEq (n : nat) : jsstring := replicate n 61.

(** *** [atob]: the forgiving-base64 decode of the HTML standard *)

Definition isAsciiWhitespace (c : N) : bool :=
  (c =? 9) || (c =? 10) || (c =? 12) || (c =? 13) || (c =? 32).

(** Value of a character of the base64 alphabet [A-Za-z0-9+/]. *)
Definition b64val (c : N) : option N :=
  if (65 <=? c) && (c <=? 90) then Some (c - 65)
  else if (97 <=? c) && (c <=? 122) then Some (c - 97 + 26)
  else if (48 <=? c) && (c <=? 57) then Some (c - 48 + 52)
  else if c =? 43 then Some 62
  else if c =? 47 then Some 63
  else None.

(** Remove one or two trailing [=] (used when the length is a multiple of 4). *)
Definition stripPadding (s : jsstring) : jsstring :=
  match reverse s with
  | 61 :: 61 :: r => reverse r
  | 61 :: r => reverse r
  | _ => s
  end.

(** Groups of four sextets give three bytes; a rest of two sextets gives one
    byte and a rest of three gives two (the low bits are discarded). *)
Fixpoint sextetsToBytes (v : list N) : list N :=
  match v with
  | a :: b :: c :: d :: rest =>
      let w := N.lor (N.shiftl a 18) (N.lor (N.shiftl b 12) (N.lor (N.shiftl c 6) d)) in
      N.land (N.shiftr w 16) 255 :: N.land (N.shiftr w 8) 255 :: N.land w 255
        :: sextetsToBytes rest
  | [a; b; c] =>
      let w := N.lor (N.shiftl a 12) (N.lor (N.shiftl b 6) c) in
      [N.land (N.shiftr w 10) 255; N.land (N.shiftr w 2) 255]
  | [a; b] =>
      let w := N.lor (N.shiftl a 6) b in
      [N.land (N.shiftr w 4) 255]
  | _ => []
  end.

(** [atob(data)]: [None] stands for the [InvalidCharacterError] it throws.
    The result is a binary string: one code unit below 256 per byte. *)
Definition atob (data : jsstring) : option jsstring :=
  let d := filter (fun c => isAsciiWhitespace c = false) data in
  let d := if (length d mod 4 =? 0)%nat then stripPadding d else d in
  if (length d mod 4 =? 1)%nat then None
  else sextetsToBytes <$> mapM b64val d.

(** *** [new TextDecoder("utf-8", { fatal: false }).decode(bytes)] *)

(** A multi-byte sequence under way: code point so far, bytes still needed,
    and the bounds allowed for the next byte. *)
Record pending := Pending {
  codePoint : N;
  bytesNeeded : nat;
  lowerBoundary : N;
  upperBoundary : N
}.

Inductive leadResult :=
| Emit (cp : N)
| Need (p : pending)
| Invalid.

(** A byte met when no sequence is under way. *)
Definition utf8Lead (b : N) : leadResult :=
  if b <=? 127 then Emit b
  else if (194 <=? b) && (b <=? 223) then
    Need (Pending (N.land b 31) 1 128 191)
  else if (224 <=? b) && (b <=? 239) then
    Need (Pending (N.land b 15) 2 (if b =? 224 then 160 else 128)
                  (if b =? 237 then 159 else 191))
  else if (240 <=? b) && (b <=? 244) then
    Need (Pending (N.land b 7) 3 (if b =? 240 then 144 else 128)
                  (if b =? 244 then 143 else 191))
  else Invalid.

Definition replacementChar : N := 65533.

(** The decoder of the Encoding standard in replacement mode; the result is
    the list of code points.  A byte that cannot continue the sequence under
    way yields U+FFFD and is then read again as a first byte. *)
Fixpoint utf8Decode (st : option pending) (bytes : list N) : list N :=
  match bytes with
  | [] => match st with Some _ => [replacementChar] | None => [] end
  | b :: rest =>
      let start :=
        match utf8Lead b with
        | Emit cp => cp :: utf8Decode None rest
        | Need p => utf8Decode (Some p) rest
        | Invalid => replacementChar :: utf8Decode None rest
        end in
      match st with
      | None => start
      | Some p =>
          if (lowerBoundary p <=? b) && (b <=? upperBoundary p) then
            let cp := N.lor (N.shiftl (codePoint p) 6) (N.land b 63) in
            match bytesNeeded p with
            | 0%nat | 1%nat => cp :: utf8Decode None rest
            | S n => utf8Decode (Some (Pending cp n 128 191)) rest
            end
          else replacementChar :: start
      end
  end.

(** A code point as UTF-16 code units. *)
Definition utf16 (cp : N) : jsstring :=
  if cp <? 65536 then [cp]
  else let c := cp - 65536 in [55296 + N.shiftr c 10; 56320 + N.land c 1023].

(** [decoder.decode(bytes)]: a leading byte order mark is dropped
    ([ignoreBOM] is not set). *)
Definition textDecode (bytes : list N) : jsstring :=
  let cps := utf8Decode None bytes in
  let cps := match cps with 65279 :: r => r | _ => cps end in
  concat (map utf16 cps).

(** [bytes[i] = binaryString.charCodeAt(i)] into a [Uint8Array]. *)
Definition toUint8Array (binaryString : jsstring) : list N :=
  map (fun c => c mod 256) binaryString.

End JS.


(* ===================================================================== *)
(** ** The raw message payload *)
(* ===================================================================== *)

Module Gmail.
Import JS.

(** [part.body]: only [data] (base64url text) is read. *)
Record Body := mkBody { data : option jsstring }.

(** A message part as [JSON.parse] gives it for a payload of the Gmail API
    (a MessagePart): [null], or an object with the optional string [mimeType],
    the optional object [body] and the array [parts] (the components read it
    as [part.parts || []], so a part without the property has the empty
    list). *)
Inductive Part :=
| Null
| Obj (mimeType : option jsstring) (body : option Body) (parts : list Part).

(** [(part.body || {}).data] *)
Definition bodyData (body : option Body) : option jsstring :=
  match body with
  | Some b => data b
  | None => None
  end.

(** Nesting height of a payload: 0 for [null], 1 for a part without parts. *)
Fixpoint height (p : Part) : nat :=
  match p with
  | Null => 0
  | Obj _ _ parts =>
      S (foldr Nat.max 0 (map height parts))
  end.

(** The parts of a payload in depth-first order, a part before its parts. *)
Fixpoint dfs (p : Part) : list Part :=
  match p with
  | Null => []
  | Obj _ _ parts =>
      p :: flat_map dfs parts
  end.

(** A chain of [n] nested multipart containers around one empty part. *)
Fixpoint nested (n : nat) : Part :=
  match n with
  | O => Obj (Some (str "multipart/mixed")) None []
  | S k => Obj (Some (str "multipart/mixed")) None [nested k]
  end.

End Gmail.

(* ===================================================================== *)
(** ** Activation records *)
(* ===================================================================== *)

(** A computation together with the largest number of activations of the
    recursive function that are on the call stack at one time while it runs. *)
Module Stack.

Definition t (A : Type) : Type := (A * nat)%type.

Definition ret {A} (a : A) : t A := (a, 0%nat).

(** One computation after the other: the stack of the first is gone when the
    second runs. *)
Definition bind {A B} (m : t A) (f : A -> t B) : t B :=
  let '(a, d1) := m in
  let '(b, d2) := f a in
  (b, Nat.max d1 d2).

(** A call pushes one activation record for the callee. *)
Definition call {A} (m : t A) : t A :=
  let '(a, d) := m in (a, S d).

Definition value {A} (m : t A) : A := fst m.
Definition depth {A} (m : t A) : nat := snd m.

(** The computation on a call stack that has room for [limit] activations of
    the recursive function: [None] is the RangeError that the engine throws
    when the computation needs more. *)
Definition within {A} (limit : nat) (m : t A) : option A :=
  if depth m <=? limit then Some (value m) else None.

End Stack.

Notation "'let*' x := m 'in' k" := (Stack.bind m (fun x => k))
  (at level 10, x name, m at level 100, k at level 200).

(* ===================================================================== *)
(** ** frontend/src/components/EmailViewer.tsx *)
(* ===================================================================== *)

Module EmailViewer.
Import JS Gmail.

(** [decodeBase64(data)]: the body of the [try]; [None] is the [null] that the
    [catch] returns when [atob] throws. *)
Definition decodeBase64 (data : jsstring) : option jsstring :=
  (* let base64 = data.replace(/-/g, "+").replace(/_/g, "/"); *)
  let base64 := replaceChar 95 47 (replaceChar 45 43 data) in
  (* const padding = 4 - (base64.length % 4); *)
  let padding := (4 - length base64 mod 4)%nat in
  (* if (padding !== 4) base64 += "=".repeat(padding); *)
  let base64 := if (padding =? 4)%nat then base64 else base64 ++ repeatEq padding in
  match atob base64 with
  | Some binaryString => Some (textDecode (toUint8Array binaryString))
  | None => None
  end.

(** The result of [extractHtml]: [{ html, text }]. *)
Record Extracted := mkExtracted { html : option jsstring; text : option jsstring }.

(** [extractHtml(part)], with the activations of its recursive calls. *)
Fixpoint extractHtml (part : Part) : Stack.t Extracted :=
  match part with
  | Null => Stack.ret (mkExtracted None None)           (* if (!part) return ... *)
  | Obj mimeType body parts =>
      let mimeType := default [] mimeType in              (* part.mimeType || "" *)
      let data := bodyData body in                        (* (part.body || {}).data *)
      let decoded := data ≫= decodeBase64 in
      if startsWith mimeType (str "text/html") && truthy data && truthy decoded then
        Stack.ret (mkExtracted decoded None)
      else if startsWith mimeType (str "text/plain") && truthy data && truthy decoded then
        Stack.ret (mkExtracted None decoded)
      else
        (fix loop (ps : list Part) (htmlContent textContent : option jsstring)
           : Stack.t Extracted :=
           match ps with
           | [] => Stack.ret (mkExtracted htmlContent textContent)
           | p :: ps' =>
               let* result := Stack.call (extractHtml p) in
               if truthy (html result) then loop ps' (html result) textContent
               else if truthy (text result) && negb (truthy textContent)
                    then loop ps' htmlContent (text result)
                    else loop ps' htmlContent textContent
           end) parts None None
  end.

(** The [for (const p of parts)] loop of [extractHtml] on its own, from the
    values that [htmlContent] and [textContent] have reached. *)
Fixpoint forParts (ps : list Part) (htmlContent textContent : option jsstring)
  : Stack.t Extracted :=
  match ps with
  | [] => Stack.ret (mkExtracted htmlContent textContent)
  | p :: ps' =>
      let* result := Stack.call (extractHtml p) in
      if truthy (html result) then forParts ps' (html result) textContent
      else if truthy (text result) && negb (truthy textContent)
           then forParts ps' htmlContent (text result)
           else forParts ps' htmlContent textContent
  end.

(** [extractHtmlFromRawJson()]: [payload] is [JSON.parse(rawJson)?.payload],
    or [None] when [JSON.parse] throws. *)
Definition extractHtmlFromRawJson
    (JSON_parse_payload : jsstring -> option Part)
    (htmlBody rawJson : option jsstring) : option jsstring :=
  if truthy htmlBody then htmlBody
  else if negb (truthy rawJson) then None
  else
    match rawJson ≫= JSON_parse_payload with
    | None => None                                      (* catch (e) *)
    | Some Null => None                                 (* if (!payload) return null *)
    | Some payload =>
        let result := Stack.value (Stack.call (extractHtml payload)) in
        or_else (html result) (text result)
    end.

End EmailViewer.

(* ===================================================================== *)
(** ** The EmailCard component: HTML extraction *)
(* ===================================================================== *)

Module EmailCard.
Import JS Gmail.

(** The [try] block of [extractHtml]: decode base64url, then UTF-8; [None]
    is the [null] of its [catch]. *)
Definition decodeHtml (data : jsstring) : option jsstring :=
  let base64 := replaceChar 95 47 (replaceChar 45 43 data) in
  let padding := (4 - length base64 mod 4)%nat in
  let base64 := if (padding =? 4)%nat then base64 else base64 ++ repeatEq padding in
  match atob base64 with
  | Some binaryString => Some (textDecode (toUint8Array binaryString))
  | None => None
  end.

(** [extractHtml(part)], with the activations of its recursive calls. *)
Fixpoint extractHtml (part : Part) : Stack.t (option jsstring) :=
  match part with
  | Null => Stack.ret None                               (* if (!part) return null *)
  | Obj mimeType body parts =>
      let mimeType := default [] mimeType in
      let data := bodyData body in
      if startsWith mimeType (str "text/html") && truthy data then
        Stack.ret (data ≫= decodeHtml)
      else
        (fix loop (ps : list Part) : Stack.t (option jsstring) :=
           match ps with
           | [] => Stack.ret None
           | p :: ps' =>
               let* html := Stack.call (extractHtml p) in
               if truthy html then Stack.ret html else loop ps'
           end) parts
  end.

(** The [for (const p of parts)] loop of [extractHtml] on its own. *)
Fixpoint forParts (ps : list Part) : Stack.t (option jsstring) :=
  match ps with
  | [] => Stack.ret None
  | p :: ps' =>
      let* html := Stack.call (extractHtml p) in
      if truthy html then Stack.ret html else forParts ps'
  end.

(** [extractHtmlFromRawJson()] *)
Definition extractHtmlFromRawJson
    (JSON_parse_payload : jsstring -> option Part)
    (htmlBody rawJson : option jsstring) : option jsstring :=
  if truthy htmlBody then htmlBody
  else if negb (truthy rawJson) then None
  else
    match rawJson ≫= JSON_parse_payload with
    | None => None
    | Some Null => None
    | Some payload => Stack.value (Stack.call (extractHtml payload))
    end.


(** *** The DOM that [sanitizeHtml] works on *)

(** A node of the fragment parsed into [tempDiv].  [html] tells an element of
    the HTML namespace from a foreign (SVG, MathML) one.  An HTML [template]
    element has no child nodes: the parser puts what is written inside it into
    its [content], which selectors and [children] do not reach and which
    [innerHTML] serialises. *)
Inductive Node :=
| TextNode (data : jsstring)
| CommentNode (data : jsstring)
| Element (html : bool) (localName : jsstring)
          (attributes : list (jsstring * jsstring)) (childNodes : list Node)
| Template (attributes : list (jsstring * jsstring)) (content : list Node).

Definition eqs (a b : jsstring) : bool := bool_decide (a = b).

Definition isElement (n : Node) : bool :=
  match n with
  | Element _ _ _ _ | Template _ _ => true
  | _ => false
  end.

Definition isTemplate (n : Node) : bool :=
  match n with
  | Template _ _ => true
  | _ => false
  end.

Definition nodeLocalName (n : Node) : option jsstring :=
  match n with
  | Element _ name _ _ => Some name
  | Template _ _ => Some (str "template")
  | _ => None
  end.

Definition toUpper (s : jsstring) : jsstring :=
  map (fun c => if (97 <=? c)%N && (c <=? 122)%N then (c - 32)%N else c) s.

(** [el.tagName]: upper case for an HTML element, as written otherwise. *)
Definition tagName (n : Node) : jsstring :=
  match n with
  | Element true name _ _ => toUpper name
  | Element false name _ _ => name
  | Template _ _ => str "TEMPLATE"
  | _ => []
  end.

(** [el.children]: the child elements. *)
Definition children (n : Node) : list Node :=
  match n with
  | Element _ _ _ cs => filter (fun c => isElement c = true) cs
  | _ => []
  end.

(** [node.textContent]: the text of the descendants, comments left out. *)
Fixpoint textContent (n : Node) : jsstring :=
  match n with
  | TextNode d => d
  | CommentNode _ => []
  | Element _ _ _ cs => flat_map textContent cs
  | Template _ _ => []
  end.

(** The descendant elements of a list of sibling nodes, in tree order
    (what [querySelectorAll("*")] lists). *)
Fixpoint descendantsOf (n : Node) : list Node :=
  match n with
  | Element _ _ _ cs => n :: flat_map descendantsOf cs
  | Template _ _ => [n]
  | _ => []
  end.

Definition querySelectorAllStar (nodes : list Node) : list Node :=
  flat_map descendantsOf nodes.

(** [el.querySelector(name)] finds a descendant element of that name. *)
Definition querySelector (name : jsstring) (n : Node) : bool :=
  match n with
  | Element _ _ _ cs =>
      existsb (fun d => bool_decide (nodeLocalName d = Some name))
              (querySelectorAllStar cs)
  | _ => false
  end.

(** White space and line terminators of ECMAScript, as [trim] strips them. *)
Definition isJsWhitespace (c : N) : bool :=
  ((9 <=? c) && (c <=? 13) || (c =? 32) || (c =? 160) || (c =? 5760)
   || (8192 <=? c) && (c <=? 8202) || (c =? 8232) || (c =? 8233)
   || (c =? 8239) || (c =? 8287) || (c =? 12288) || (c =? 65279))%N.

Fixpoint dropWhitespace (s : jsstring) : jsstring :=
  match s with
  | c :: s' => if isJsWhitespace c then dropWhitespace s' else s
  | [] => []
  end.

(** [s.trim()] *)
Definition trim (s : jsstring) : jsstring :=
  reverse (dropWhitespace (reverse (dropWhitespace s))).

(** [tempDiv.querySelectorAll(name).forEach(el => el.remove())] *)
Fixpoint removeAll (name : jsstring) (n : Node) : list Node :=
  match n with
  | Element h ln attrs cs =>
      if eqs ln name then []
      else [Element h ln attrs (flat_map (removeAll name) cs)]
  | Template attrs c => if eqs (str "template") name then [] else [n]
  | _ => [n]
  end.

Definition removeAllIn (name : jsstring) (nodes : list Node) : list Node :=
  flat_map (removeAll name) nodes.

(** The test of [removeEmptyElements] on a child whose own children have been
    cleaned already. *)
Definition isEmptyElement (child : Node) : bool :=
  let text := trim (textContent child) in
  let hasImages := querySelector (str "img") child in
  let hasLinks := querySelector (str "a") child in
  let hasContent := negb (length text =? 0)%nat || hasImages || hasLinks in
  negb hasContent && (length (children child) =? 0)%nat
  && negb (eqs (tagName child) (str "BR")) && negb (eqs (tagName child) (str "HR")).

(** [removeEmptyElements] seen from one child: clean below it, then drop it
    when it is empty. *)
Fixpoint removeEmptyNode (n : Node) : list Node :=
  match n with
  | Element h ln attrs cs =>
      let child := Element h ln attrs (flat_map removeEmptyNode cs) in
      if isEmptyElement child then [] else [child]
  | Template attrs c => if isEmptyElement n then [] else [n]
  | _ => [n]
  end.

(** [removeEmptyElements(tempDiv)] on the child nodes of [tempDiv]. *)
Definition removeEmptyElements (nodes : list Node) : list Node :=
  flat_map removeEmptyNode nodes.

(** [el.removeAttribute(name)]: the first attribute of that name goes (the
    names that [sanitizeHtml] passes are in lower case already). *)
Fixpoint removeAttribute (name : jsstring) (attrs : list (jsstring * jsstring))
  : list (jsstring * jsstring) :=
  match attrs with
  | [] => []
  | (k, v) :: rest => if eqs k name then rest else (k, v) :: removeAttribute name rest
  end.

(** [el.getAttribute(name)] *)
Fixpoint getAttribute (name : jsstring) (attrs : list (jsstring * jsstring))
  : option jsstring :=
  match attrs with
  | [] => None
  | (k, v) :: rest => if eqs k name then Some v else getAttribute name rest
  end.

(** [el.setAttribute(name, value)] *)
Fixpoint setAttribute (name value : jsstring) (attrs : list (jsstring * jsstring))
  : list (jsstring * jsstring) :=
  match attrs with
  | [] => [(name, value)]
  | (k, v) :: rest =>
      if eqs k name then (k, value) :: rest else (k, v) :: setAttribute name value rest
  end.

(** The body of [Array.from(el.attributes).forEach(attr => ...)] for one
    attribute of the snapshot. *)
Definition dropDangerous (cur : list (jsstring * jsstring)) (attr : jsstring * jsstring)
  : list (jsstring * jsstring) :=
  let name := fst attr in
  let cur := if startsWith name (str "on") || eqs name (str "javascript")
             then removeAttribute name cur else cur in
  let cur := if eqs name (str "class") then removeAttribute (str "class") cur else cur in
  if eqs name (str "id") then removeAttribute (str "id") cur else cur.

(** *** [tempDiv.innerHTML]: the fragment serialisation of the HTML standard *)

Definition voidElements : list jsstring :=
  map str ["area"; "base"; "basefont"; "bgsound"; "br"; "col"; "embed"; "frame"; "hr";
           "img"; "input"; "keygen"; "link"; "meta"; "param"; "source"; "track"; "wbr"].

(** The elements whose text is written as it is. *)
Definition rawTextElements : list jsstring :=
  map str ["style"; "script"; "xmp"; "iframe"; "noembed"; "noframes"; "plaintext";
           "noscript"].

Definition isOneOf (names : list jsstring) (name : jsstring) : bool :=
  existsb (eqs name) names.

(** Escaping a string: [&] and U+00A0 always, the double quote in an
    attribute value, [<] and [>] in text.  Whether [<] and [>] are escaped in
    an attribute value as well depends on the age of the browser
    ([anglesInAttributes]); the standard asks for it since 2025. *)
Definition escapeString (attributeMode anglesInAttributes : bool) (s : jsstring) : jsstring :=
  flat_map (fun c =>
              if (c =? 38)%N then str "&amp;"
              else if (c =? 160)%N then str "&nbsp;"
              else if attributeMode && (c =? 34)%N then str "&quot;"
              else if (negb attributeMode || anglesInAttributes) && (c =? 60)%N then str "&lt;"
              else if (negb attributeMode || anglesInAttributes) && (c =? 62)%N then str "&gt;"
              else [c]) s.

Definition serialiseAttributes (anglesInAttributes : bool)
    (attrs : list (jsstring * jsstring)) : jsstring :=
  flat_map (fun a => str " " ++ fst a ++ str "=" ++ [34%N]
                     ++ escapeString true anglesInAttributes (snd a) ++ [34%N]) attrs.

(** One node; [raw] says that the parent is a raw-text element. *)
Fixpoint serialiseNode (anglesInAttributes raw : bool) (n : Node) : jsstring :=
  match n with
  | TextNode d => if raw then d else escapeString false anglesInAttributes d
  | CommentNode d => str "<!--" ++ d ++ str "-->"
  | Element h ln attrs cs =>
      str "<" ++ ln ++ serialiseAttributes anglesInAttributes attrs ++ str ">"
      ++ (if h && isOneOf voidElements ln then []
          else flat_map (serialiseNode anglesInAttributes (h && isOneOf rawTextElements ln)) cs
               ++ str "</" ++ ln ++ str ">")
  | Template attrs c =>
      str "<template" ++ serialiseAttributes anglesInAttributes attrs ++ str ">"
      ++ flat_map (serialiseNode anglesInAttributes false) c ++ str "</template>"
  end.

Definition innerHTML (anglesInAttributes : bool) (nodes : list Node) : jsstring :=
  flat_map (serialiseNode anglesInAttributes false) nodes.

(** *** The three [replace] calls at the end of [sanitizeHtml] *)

Definition toLower (c : N) : N :=
  if (65 <=? c)%N && (c <=? 90)%N then (c + 32)%N else c.

(** The literal [lit] at the start of [s], letters in either case (flag [i]):
    what follows it. *)
Fixpoint eatLiteral (lit s : jsstring) : option jsstring :=
  match lit, s with
  | [], _ => Some s
  | _ :: _, [] => None
  | c :: lit', d :: s' => if (toLower c =? toLower d)%N then eatLiteral lit' s' else None
  end.

(** [[^>]*>]: up to and with the next [>]. *)
Fixpoint eatThroughGt (s : jsstring) : option jsstring :=
  match s with
  | [] => None
  | c :: s' => if (c =? 62)%N then Some s' else eatThroughGt s'
  end.

(** An empty div, the pattern D = [<div[^>]*>\s*<\/div>] of the three regular
    expressions, at the start of [s]: what follows it. *)
Definition eatEmptyDiv (s : jsstring) : option jsstring :=
  match eatLiteral (str "<div") s with
  | Some rest =>
      match eatThroughGt rest with
      | Some rest => eatLiteral (str "</div>") (dropWhitespace rest)
      | None => None
      end
  | None => None
  end.

(** Empty divs with white space before and after each (D between [\s*] and
    [\s*]) at the start of [s], as often as that matches: what follows. *)
Fixpoint eatEmptyDivs (fuel : nat) (s : jsstring) : jsstring :=
  match fuel with
  | O => s
  | S fuel' =>
      match eatEmptyDiv (dropWhitespace s) with
      | Some rest => eatEmptyDivs fuel' (dropWhitespace rest)
      | None => s
      end
  end.

(** The first [replace]: empty divs, each between [\s*] and [\s*], one or
    more times from the start of the text ([^], flag [i]), are deleted. *)
Definition stripLeadingEmptyDivs (s : jsstring) : jsstring :=
  eatEmptyDivs (length s) s.

(** Whether [s] is one or more empty divs, each between [\s*] and [\s*],
    up to its end ([$]). *)
Fixpoint onlyEmptyDivs (fuel : nat) (s : jsstring) : bool :=
  match fuel with
  | O => false
  | S fuel' =>
      match eatEmptyDiv (dropWhitespace s) with
      | Some rest =>
          match dropWhitespace rest with
          | [] => true
          | rest' => onlyEmptyDivs fuel' rest'
          end
      | None => false
      end
  end.

(** The second [replace]: the same group, one or more times up to the end
    of the text ([$], flag [i]); the match starts at the first position from
    which only empty divs follow. *)
Fixpoint stripTrailingEmptyDivs (s : jsstring) : jsstring :=
  match s with
  | [] => []
  | c :: s' => if onlyEmptyDivs (length s) s then [] else c :: stripTrailingEmptyDivs s'
  end.

(** Empty divs, each followed by [\s*], at the start of [s]: how often that
    matches, and what follows. *)
Fixpoint eatDivRun (fuel : nat) (s : jsstring) : nat * jsstring :=
  match fuel with
  | O => (0, s)
  | S fuel' =>
      match eatEmptyDiv s with
      | Some rest =>
          let '(k, rest') := eatDivRun fuel' (dropWhitespace rest) in (S k, rest')
      | None => (0, s)
      end
  end.

(** The third [replace]: every run of two or more empty divs, each followed
    by [\s*], is deleted (quantifier [{2,}], flags [g] and [i]). *)
Fixpoint stripEmptyDivRuns (fuel : nat) (s : jsstring) : jsstring :=
  match fuel with
  | O => s
  | S fuel' =>
      match s with
      | [] => []
      | c :: s' =>
          let '(k, rest) := eatDivRun (length s) s in
          if 2 <=? k then stripEmptyDivRuns fuel' rest else c :: stripEmptyDivRuns fuel' s'
      end
  end.

(** The three [replace] calls, one after the other. *)
Definition stripEmptyDivs (cleaned : jsstring) : jsstring :=
  let cleaned := stripLeadingEmptyDivs cleaned in
  let cleaned := stripTrailingEmptyDivs cleaned in
  stripEmptyDivRuns (length cleaned) cleaned.

Section Sanitize.

(** What [sanitizeHtml] takes from the browser without a model here: the HTML
    parser that fills [tempDiv], and the chain of [replace] calls that cleans
    one inline style (it changes the value of [style] attributes only). *)
Variable parseFragment : jsstring -> list Node.
Variable cleanStyle : jsstring -> jsstring.

(** The body of [allElements.forEach(el => ...)] on the attributes of [el]. *)
Definition cleanAttributes (isImg : bool) (attrs : list (jsstring * jsstring))
  : list (jsstring * jsstring) :=
  let attrs := fold_left dropDangerous attrs attrs in
  let attrs :=
    if isImg then
      let attrs := setAttribute (str "loading") (str "lazy") attrs in
      let existingStyle := default [] (getAttribute (str "style") attrs) in
      setAttribute (str "style")
        (str "max-width: 100%; height: auto; display: block; " ++ existingStyle) attrs
    else attrs in
  match getAttribute (str "style") attrs with
  | Some style =>
      let cleanedStyle := cleanStyle style in
      if (0 <? length cleanedStyle)%nat
      then setAttribute (str "style") cleanedStyle attrs
      else removeAttribute (str "style") attrs
  | None => attrs
  end.

(** [tempDiv.querySelectorAll("*").forEach(el => ...)] *)
Fixpoint cleanElements (n : Node) : Node :=
  match n with
  | Element h ln attrs cs =>
      Element h ln (cleanAttributes (eqs (tagName n) (str "IMG")) attrs)
              (map cleanElements cs)
  | Template attrs c => Template (cleanAttributes false attrs) c
  | _ => n
  end.

(** The child nodes of [tempDiv] when [tempDiv.innerHTML] is read. *)
Definition sanitizeDom (nodes : list Node) : list Node :=
  let nodes := removeAllIn (str "script") nodes in
  let nodes := removeAllIn (str "style") nodes in
  let nodes := removeEmptyElements nodes in
  map cleanElements nodes.

(** [sanitizeHtml(html)] *)
Definition sanitizeHtml (anglesInAttributes : bool) (html : jsstring) : jsstring :=
  stripEmptyDivs (innerHTML anglesInAttributes (sanitizeDom (parseFragment html))).

End Sanitize.

(** The elements that the serialisation of a fragment shows: the descendant
    elements, and for a [template] also those of its content. *)
Fixpoint serialisedElements (n : Node) : list Node :=
  match n with
  | Element _ _ _ cs => n :: flat_map serialisedElements cs
  | Template _ c => n :: flat_map serialisedElements c
  | _ => []
  end.

Definition nodeAttributes (n : Node) : list (jsstring * jsstring) :=
  match n with
  | Element _ _ attrs _ | Template attrs _ => attrs
  | _ => []
  end.

(** The attribute names that must not be left: event handlers ([on...]),
    [class] and [id]. *)
Definition dangerousName (name : jsstring) : bool :=
  startsWith name (str "on") || eqs name (str "class") || eqs name (str "id").

(** Neither a [script] nor a [style] element, and no attribute with a
    dangerous name. *)
Definition isSafeElement (n : Node) : bool :=
  negb (bool_decide (nodeLocalName n = Some (str "script")))
  && negb (bool_decide (nodeLocalName n = Some (str "style")))
  && forallb (fun a => negb (dangerousName (fst a))) (nodeAttributes n).

(** An HTML comment whose text holds two empty divs in front of a script
    element, the fragment that the HTML parser makes of it (one comment
    node), and a fragment with a script element between two comments. *)
Definition commentHtml : jsstring :=
  str "<!--x--<div></div><div></div>><script>alert(1)</script><!---->".

Definition commentFragment : list Node :=
  [CommentNode (str "x--<div></div><div></div>><script>alert(1)</script><!--")].

Definition scriptFragment : list Node :=
  [CommentNode (str "x");
   Element true (str "script") [] [TextNode (str "alert(1)")];
   CommentNode []].

End EmailCard.

(* ===================================================================== *)
(** ** Finding the HTML part, as the specification words it *)
(* ===================================================================== *)

Module FindHtmlPart.
Import JS Gmail.

Definition mimeStartsWith (prefix : string) (p : Part) : bool :=
  match p with
  | Obj mimeType _ _ => startsWith (default [] mimeType) (str prefix)
  | Null => false
  end.

(** A leaf of the payload tree: a part without parts. *)
Definition isLeaf (p : Part) : bool :=
  match p with
  | Obj _ _ [] => true
  | _ => false
  end.

(** The decoded content of the body of a part. *)
Definition decodedContent (p : Part) : option jsstring :=
  match p with
  | Obj _ body _ => bodyData body ≫= EmailViewer.decodeBase64
  | Null => None
  end.

(** The content of a part that matches a MIME type: its body decodes to a
    non-empty string. *)
Definition contentOf (prefix : string) (p : Part) : option jsstring :=
  if mimeStartsWith prefix p && truthy (decodedContent p) then decodedContent p else None.

(** The contents of the parts that match a MIME type, in depth-first order. *)
Definition contents (prefix : string) (payload : Part) : list jsstring :=
  omap (contentOf prefix) (dfs payload).

(** "The first leaf part matching the text/html MIME type (in depth-first
    order), or null when no part of the payload matches." *)
Definition firstHtmlLeaf (payload : Part) : option jsstring :=
  head (omap (fun p => if isLeaf p then contentOf "text/html" p else None) (dfs payload)).

(** Gmail gives body data to leaf parts only: a part that carries data has no
    parts of its own. *)
Definition leafBodies (payload : Part) : bool :=
  forallb (fun p => match p with
                    | Obj _ body parts => negb (truthy (bodyData body)) || isLeaf p
                    | Null => true
                    end) (dfs payload).

(** A string or [null] with the empty string read as [null]. *)
Definition nonEmpty (v : option jsstring) : option jsstring :=
  if truthy v then v else None.

(** Two HTML alternatives, <p>A</p> before <p>B</p>. *)
Definition twoHtmlParts : Part :=
  Obj (Some (str "multipart/alternative")) None
      [ Obj (Some (str "text/html")) (Some (mkBody (Some (str "PHA-QTwvcD4")))) [];
        Obj (Some (str "text/html")) (Some (mkBody (Some (str "PHA-QjwvcD4")))) [] ].

(** A message with a plain-text body only (the text is "Hello"). *)
Definition plainTextOnly : Part :=
  Obj (Some (str "text/plain; charset=UTF-8")) (Some (mkBody (Some (str "SGVsbG8")))) [].

(** The usual multipart/alternative message: plain text, then HTML. *)
Definition textAndHtml : Part :=
  Obj (Some (str "multipart/alternative")) None
      [ Obj (Some (str "text/plain")) (Some (mkBody (Some (str "SGVsbG8")))) [];
        Obj (Some (str "text/html")) (Some (mkBody (Some (str "PHA-QTwvcD4")))) [] ].

End FindHtmlPart.

(* ===================================================================== *)
(** ** The DashboardPage component and its sync statistics *)
(* ===================================================================== *)

Module Dashboard.
Local Open Scope Z_scope.

(** The [sync_stats] object of a response body as [res.json()] gives it: a
    JSON object whose properties are numbers, and a JavaScript number is an
    IEEE 754 double.  The type [SyncStats] names six properties; it is gone
    at run time, the object has whatever properties the server sent. *)
Abbreviation JsonObject := (gmap string float).

(** The part of the body of a response of [/api/dashboard] that the Sync
    Status card reads, and the [error] property of an error body. *)
Record DashboardPayload := mkPayload {
  error : option string;
  sync_stats : option JsonObject
}.

(** A response: its status and its body, [None] when the body is not JSON. *)
Record Response := mkResponse {
  status : Z;
  json : option DashboardPayload
}.

(** The component state that [load] leaves: [data] and [error]. *)
Record State := mkState {
  data : option DashboardPayload;
  errorMessage : option string
}.

(** [res.ok] *)
Definition ok (res : Response) : bool := (200 <=? status res) && (status res <=? 299).

(** [load()]; [syntaxError] is the message of the error that [res.json()]
    throws on a body that is not JSON. *)
Definition load (syntaxError : string) (res : Response) : State :=
  if status res =? 401 then
    mkState None (Some "Please log in to view your dashboard")
  else if negb (ok res) then
    (* errorData = await res.json().catch(() => ({})) *)
    let errorData := json res ≫= error in
    let message :=
      match errorData with
      | Some (String c m) => String c m
      | _ => "HTTP " +:+ pretty (status res)
      end in
    mkState None (Some (if String.eqb message "" then "Failed to load dashboard" else message))
  else
    match json res with
    | Some payload => mkState (Some payload) None
    | None =>
        mkState None
          (Some (if String.eqb syntaxError "" then "Failed to load dashboard" else syntaxError))
    end.

(** What the Sync Status card shows: the pill and the three statistics. *)
Record SyncStatusCard := mkCard {
  totalEmails : float;
  processedEmails : float;
  shownNew : float;
  shownPending : float;
  shownNewlyProcessed : float
}.

(** [sync_stats?.field ?? 0] *)
Definition field (sync_stats : option JsonObject) (name : string) : float :=
  default 0%float (sync_stats ≫= (fun o => o !! name)).

Definition syncStatusCard (sync_stats : option JsonObject) : SyncStatusCard :=
  mkCard (field sync_stats "total_emails")
         (field sync_stats "processed_emails")
         (field sync_stats "new_count")
         (field sync_stats "unprocessed_emails")
         (field sync_stats "newly_processed").

(** The render of the page: [if (error || !data)] gives the error card with
    [error || "Failed to load dashboard data"] (an empty [error] is falsy),
    and the Sync Status card is rendered otherwise. *)
Definition render (st : State) : string + SyncStatusCard :=
  match errorMessage st, data st with
  | Some (String c e), _ => inl (String c e)
  | _, None => inl "Failed to load dashboard data"
  | _, Some d => inr (syncStatusCard (sync_stats d))
  end.

End Dashboard.

(* ===================================================================== *)
(** ** The ingestion-and-classification pipeline *)
(* ===================================================================== *)

Module Pipeline.

(** Modelled from the spec: the data model of section 3 (the back end, with
    its storage schema, is not among the front-end sources).  An email is
    identified by its provider message id. *)
Abbreviation EmailId := N.

(** Modelled from the spec: the fixed set of categories of a
    ClassificationResult. *)
Inductive Category := Meeting | Task | Junk | Other.

(** Modelled from the spec: the Email entity of section 3. *)
Record Email := mkEmail {
  subject : string;
  sender : string;
  received : Z;
  snippet : string;
  body : string;
  rawPayload : string;
  processed : bool;
  hidden : bool
}.

(** Modelled from the spec: the ClassificationResult entity of section 3. *)
Record ClassificationResult := mkResult {
  category : Category;
  fields : list (string * string)
}.

(** Modelled from the spec: the storage collaborator holds Email rows and
    ClassificationResult rows, both keyed by email id (upsert semantics). *)
Record Store := mkStore {
  emails : gmap EmailId Email;
  results : gmap EmailId ClassificationResult
}.

Definition emptyStore : Store := mkStore ∅ ∅.

(** Modelled from the spec: what [fetchMessages] of the mailbox collaborator
    returns for one message (section 6). *)
Record Message := mkMessage {
  msgId : EmailId;
  msgSubject : string;
  msgSender : string;
  msgDate : Z;
  msgSnippet : string;
  msgBody : string;
  msgRawPayload : string
}.

(** Modelled from the spec: the failures of the fetch stage (section 7). *)
Inductive FetchError := CredentialError | TransportError.

(** Modelled from the spec: one record of the response of the classification
    collaborator, before validation (section 6). *)
Record RawRecord := mkRawRecord {
  recEmailId : EmailId;
  recCategory : string;
  recFields : list (string * string)
}.

(** Modelled from the spec: the external collaborators of section 6, as the
    pipeline sees them in one run. *)
Record Collaborators := mkCollaborators {
  (* fetchMessages(credential, knownIds) *)
  fetchMessages : gset EmailId -> FetchError + list Message;
  (* classify(batch): None is an adapter error or a malformed response *)
  classify : list (EmailId * string) -> option (list RawRecord);
  (* whether the category-specific fields parse to the expected types *)
  fieldsParse : Category -> list (string * string) -> bool;
  (* whether the storage write for this email succeeds *)
  storageWrites : EmailId -> bool
}.

(** Modelled from the spec: the lifecycle states of a SyncJob (section 4.1). *)
Inductive JobState := QUEUED | RUNNING | COMPLETED | FAILED.

(** Modelled from the spec: the snapshot of section 6,
    [{total, processed, unprocessed, new, failed}], with the job state and the
    last error. *)
Record Snapshot := mkSnapshot {
  state : JobState;
  total : nat;
  processedCount : nat;
  unprocessed : nat;
  new : nat;
  failed : nat;
  lastError : option FetchError
}.

(** Modelled from the spec: the outcome of the Batch Classifier for one
    message (section 4.3). *)
Inductive Outcome :=
| Classified (id : EmailId) (result : ClassificationResult)
| Failed (id : EmailId).

(** Modelled from the spec: "size bound: 25 messages per batch". *)
Definition batchSize : nat := 25.

(** Modelled from the spec: "Partition the input into fixed-size batches":
    cut [size] messages off the front until none is left. *)
Fixpoint chunks {A} (fuel size : nat) (l : list A) : list (list A) :=
  match fuel with
  | O => []
  | S fuel' =>
      match l with
      | [] => []
      | _ :: _ => take size l :: chunks fuel' size (drop size l)
      end
  end.

Definition partitionBatches {A} (l : list A) : list (list A) :=
  chunks (length l) batchSize l.

(** Modelled from the spec: "category is one of the enumerated set". *)
Definition parseCategory (s : string) : option Category :=
  if String.eqb s "meeting" then Some Meeting
  else if String.eqb s "task" then Some Task
  else if String.eqb s "junk" then Some Junk
  else if String.eqb s "newsletter" then Some Junk
  else if String.eqb s "other" then Some Other
  else None.

(** Modelled from the spec: the schema validation of one record. *)
Definition validate (c : Collaborators) (r : RawRecord) : option ClassificationResult :=
  match parseCategory (recCategory r) with
  | Some cat =>
      if fieldsParse c cat (recFields r) then Some (mkResult cat (recFields r)) else None
  | None => None
  end.

(** Modelled from the spec: the outcome for one message of a batch whose
    response was decoded: the record that carries its id, validated on its
    own. *)
Definition outcomeOf (c : Collaborators) (response : list RawRecord) (id : EmailId) : Outcome :=
  match List.find (fun r => (recEmailId r =? id)%N) response with
  | Some r =>
      match validate c r with
      | Some result => Classified id result
      | None => Failed id
      end
  | None => Failed id
  end.

(** Modelled from the spec: one batch; a whole-batch failure gives [Failed]
    for every message of the batch. *)
Definition classifyBatch (c : Collaborators) (batch : list (EmailId * string)) : list Outcome :=
  match classify c batch with
  | Some response => map (fun m => outcomeOf c response (fst m)) batch
  | None => map (fun m => Failed (fst m)) batch
  end.

(** Modelled from the spec: the Batch Classifier of section 4.3.  Batches are
    independent, so the outcomes are given batch after batch. *)
Definition batchClassifier (c : Collaborators) (input : list (EmailId * string)) : list Outcome :=
  flat_map (classifyBatch c) (partitionBatches input).

(** Modelled from the spec: the Result Writer of section 4.4: upsert the
    result and mark the email processed in one step; [None] is
    [STORAGE_FAILURE]. *)
Definition write (c : Collaborators) (st : Store) (id : EmailId) (r : ClassificationResult)
  : option Store :=
  match emails st !! id with
  | Some e =>
      if storageWrites c id then
        Some (mkStore
                (<[id := mkEmail (subject e) (sender e) (received e) (snippet e) (body e)
                                 (rawPayload e) true (hidden e)]> (emails st))
                (<[id := r]> (results st)))
      else None
  | None => None
  end.

(** Modelled from the spec: step 2 of the Sync Job: a message whose id is not
    stored yet becomes a new Email row with processed = false. *)
Definition storeNew (st : Store) (m : Message) : Store :=
  match emails st !! msgId m with
  | Some _ => st
  | None =>
      mkStore (<[msgId m := mkEmail (msgSubject m) (msgSender m) (msgDate m) (msgSnippet m)
                                     (msgBody m) (msgRawPayload m) false false]> (emails st))
              (results st)
  end.

(** Modelled from the spec: step 3: the Email rows with processed = false. *)
Definition unprocessedEmails (st : Store) : list (EmailId * string) :=
  omap (fun kv => if processed (snd kv) then None else Some (fst kv, body (snd kv)))
       (map_to_list (emails st)).

(** Modelled from the spec: step 4: the outcomes go to the Result Writer; a
    message whose result could not be written counts as failed. *)
Definition applyOutcome (c : Collaborators) (acc : Store * (nat * nat)) (o : Outcome)
  : Store * (nat * nat) :=
  let '(st, (done, bad)) := acc in
  match o with
  | Classified id r =>
      match write c st id r with
      | Some st' => (st', (S done, bad))
      | None => (st, (done, S bad))
      end
  | Failed _ => (st, (done, S bad))
  end.

(** Modelled from the spec: one run of the Sync Job of section 4.2, from the
    store before the run to the store and the final snapshot after it. *)
Definition runSync (c : Collaborators) (st : Store) : Store * Snapshot :=
  match fetchMessages c (dom (emails st)) with
  | inl err =>
      (st, mkSnapshot FAILED (size (emails st)) 0 (length (unprocessedEmails st)) 0 0
                      (Some err))
  | inr messages =>
      let st1 := foldl storeNew st messages in
      let outcomes := batchClassifier c (unprocessedEmails st1) in
      let '(st2, (done, bad)) := foldl (applyOutcome c) (st1, (0, 0)) outcomes in
      (st2, mkSnapshot COMPLETED (size (emails st2)) done (length (unprocessedEmails st2))
                       (size (emails st1) - size (emails st)) bad None)
  end.

(** Modelled from the spec: the stores that runs of the Sync Job can produce,
    starting from the empty store. *)
Inductive reachable : Store -> Prop :=
| reachable_empty : reachable emptyStore
| reachable_run c st : reachable st -> reachable (fst (runSync c st)).

(** Modelled from the spec: "a ClassificationResult exists for E". *)
Definition hasResult (st : Store) (id : EmailId) : Prop := is_Some (results st !! id).

(** Modelled from the spec: "processed(E) = true". *)
Definition isProcessed (st : Store) (id : EmailId) : Prop :=
  exists e, emails st !! id = Some e /\ processed e = true.

(** Modelled from the spec: the scenario of section 8: the mailbox returns 30
    new messages and the adapter fails on the batch of five. *)
Definition thirtyMessages : list Message :=
  map (fun i => mkMessage (N.of_nat i) "subject" "sender" 0 "snippet" "body" "{}") (seq 0 30).

Definition scenario : Collaborators :=
  mkCollaborators
    (fun _ => inr thirtyMessages)
    (fun batch =>
       if (length batch =? 5)%nat then None
       else Some (map (fun m => mkRawRecord (fst m) "task" []) batch))
    (fun _ _ => true)
    (fun _ => true).

(** Modelled from the spec: what makes one message of a batch fail (sections
    4.3 and 7): the whole batch fails (adapter error, malformed top-level
    response), no record of the response has the message id, the category of
    its record is not one of the set, its fields do not parse, or the Result
    Writer reports STORAGE_FAILURE for it. *)
Definition messageFails (c : Collaborators) (batch : list (EmailId * string)) (id : EmailId)
  : bool :=
  match classify c batch with
  | None => true
  | Some response =>
      match List.find (fun r => (recEmailId r =? id)%N) response with
      | None => true
      | Some r =>
          match parseCategory (recCategory r) with
          | None => true
          | Some cat => negb (fieldsParse c cat (recFields r)) || negb (storageWrites c id)
          end
      end
  end.

(** Modelled from the spec: the messages of the batches that fail, and those
    that are classified and written. *)
Definition failedMessages (c : Collaborators) (batches : list (list (EmailId * string)))
  : list (EmailId * string) :=
  flat_map (fun batch => filter (fun m => messageFails c batch (fst m) = true) batch) batches.

Definition classifiedMessages (c : Collaborators) (batches : list (list (EmailId * string)))
  : list (EmailId * string) :=
  flat_map (fun batch => filter (fun m => messageFails c batch (fst m) = false) batch) batches.

(** The email that an outcome is for, and whether [applyOutcome] counts the
    outcome as failed when that email is stored. *)
Definition outcomeId (o : Outcome) : EmailId :=
  match o with
  | Classified id _ => id
  | Failed id => id
  end.

Definition countedFailed (c : Collaborators) (o : Outcome) : bool :=
  match o with
  | Classified id _ => negb (storageWrites c id)
  | Failed _ => true
  end.

(** Modelled from the spec: users, the storage of every user, and the job
    table of the Job Manager, which holds the snapshot of the user's latest
    SyncJob (section 4.1: process-wide, without persistence, empty when the
    process starts). *)
Abbreviation UserId := N.









End Pipeline.


(* ===================================================================== *)
(** ** The EmailCard component: Eastern daylight time *)
(* ===================================================================== *)

(** [_isEasternDST] and [_getNthSunday] ([frontend/src/pages/LoginPage.tsx],
    lines 313-347) and the [Date] objects they build. *)
Module EasternTime.
Local Open Scope Z_scope.

(** *** [new Date(year, month, day)] after the ECMAScript specification *)

(** MakeFullYear: a year from 0 to 99 stands for 1900 + year. *)
Definition MakeFullYear (year : Z) : Z :=
  if (0 <=? year) && (year <=? 99) then 1900 + year else year.

(** DaysInYear, DayFromYear and InLeapYear. *)
Definition DaysInYear (y : Z) : Z :=
  if negb (y mod 4 =? 0) then 365
  else if negb (y mod 100 =? 0) then 366
  else if negb (y mod 400 =? 0) then 365
  else 366.

Definition DayFromYear (y : Z) : Z :=
  365 * (y - 1970) + (y - 1969) / 4 - (y - 1901) / 100 + (y - 1601) / 400.

Definition InLeapYear (y : Z) : Z := if DaysInYear y =? 366 then 1 else 0.

(** The day of the year on which a month begins (the table of
    MonthFromTime), and the length of a month. *)
Definition monthStart (leap m : Z) : Z :=
  match m with
  | 0 => 0 | 1 => 31 | 2 => 59 + leap | 3 => 90 + leap | 4 => 120 + leap
  | 5 => 151 + leap | 6 => 181 + leap | 7 => 212 + leap | 8 => 243 + leap
  | 9 => 273 + leap | 10 => 304 + leap | 11 => 334 + leap
  | _ => 365 + leap
  end.

Definition daysInMonth (leap m : Z) : Z := monthStart leap (m + 1) - monthStart leap m.

(** MakeDay: the day number (days since 1 January 1970) of a date; months
    outside 0..11 carry into the year. *)
Definition MakeDay (year month date : Z) : Z :=
  let ym := year + month / 12 in
  let mn := month mod 12 in
  DayFromYear ym + monthStart (InLeapYear ym) mn + date - 1.

(** WeekDay: 0 is Sunday; day 0 was a Thursday. *)
Definition WeekDay (day : Z) : Z := (day + 4) mod 7.

(** TimeClip: a Date holds the days less than 100,000,000 days from day 0; the
    constructor gives an Invalid Date for the others.  (On the two days at
    exactly that distance, 20 April -271821 and 13 September 275760, the
    time zone decides.) *)
Definition validDay (day : Z) : bool := Z.abs day <? 100000000.

(** [new Date(year, month, day).getMonth()] for a day from 1 to 31, the days
    that the loop of [_getNthSunday] asks for: the month itself, or the next
    one for a day past the end of the month; [None] is the NaN of an Invalid
    Date.  The date is built and read in local time, its calendar day is the
    one asked for. *)
Definition Date_getMonth (year month day : Z) : option Z :=
  let yr := MakeFullYear year in
  if validDay (MakeDay yr month day) then
    let ym := yr + month / 12 in
    let mn := month mod 12 in
    Some (if day <=? daysInMonth (InLeapYear ym) mn then mn else (mn + 1) mod 12)
  else None.

(** [new Date(year, month, day).getDay()] *)
Definition Date_getDay (year month day : Z) : option Z :=
  let t := MakeDay (MakeFullYear year) month day in
  if validDay t then Some (WeekDay t) else None.

(** *** The two functions *)

(** The [for (let day = 1; day <= 31; day++)] loop of [_getNthSunday] from
    the values that [day] and [count] have reached; 31 is the fallback
    after the loop. *)
Fixpoint getNthSunday_for (fuel : nat) (year month n day count : Z) : Z :=
  match fuel with
  | O => 31
  | S fuel' =>
      if negb (day <=? 31) then 31
      (* if (date.getMonth() !== month) break; *)
      else if negb (bool_decide (Date_getMonth year month day = Some month)) then 31
      (* if (date.getDay() === 0) *)
      else if bool_decide (Date_getDay year month day = Some 0) then
        let count := count + 1 in
        if count =? n then day else getNthSunday_for fuel' year month n (day + 1) count
      else getNthSunday_for fuel' year month n (day + 1) count
  end.

(** [_getNthSunday(year, month, n)] *)
Definition _getNthSunday (year month n : Z) : Z :=
  getNthSunday_for 32 year month n 1 0.

(** [_isEasternDST(year, month, day)] *)
Definition _isEasternDST (year month day : Z) : bool :=
  if (month <? 2) || (month >? 10) then false
  else if (month >? 2) && (month <? 10) then true
  else if month =? 2 then day >=? _getNthSunday year 2 2
  else if month =? 10 then day <? _getNthSunday year 10 1
  else false.

(** *** What the functions are compared with *)

(** The number of Sundays from the first of a month up to [day]. *)
Definition sundaysUpTo (year month day : Z) : nat :=
  length (filter (fun k => WeekDay (MakeDay (MakeFullYear year) month k) = 0) (seqZ 1 day)).

(** The loop of [_getNthSunday] and the count of Sundays as they depend on
    the week day of the first of the month and on the length of the month
    only. *)
Fixpoint loopFrom (fuel : nat) (first len n day count : Z) : Z :=
  match fuel with
  | O => 31
  | S fuel' =>
      if negb (day <=? 31) then 31
      else if negb (day <=? len) then 31
      else if (first + (day - 1)) mod 7 =? 0 then
        let count := count + 1 in
        if count =? n then day else loopFrom fuel' first len n (day + 1) count
      else loopFrom fuel' first len n (day + 1) count
  end.

Definition sundaysFrom (first day : Z) : nat :=
  length (filter (fun k => (first + (k - 1)) mod 7 = 0) (seqZ 1 day)).

End EasternTime.

(* ===================================================================== *)
(** ** The EmailCard component: the unsubscribe button and the sender line *)
(* ===================================================================== *)

(** [handleUnsubscribe] ([frontend/src/pages/LoginPage.tsx], lines 532-572),
    the sender of the card (line 889) and [displaySender] of EmailViewer
    ([frontend/src/components/EmailViewer.tsx], line 305). *)
Module CardActions.
Import JS EmailCard.

(** The test [url.match(/^https?:\/\//i)]: "http", an optional "s" and "://"
    at the start of the text, letters in either case. *)
Definition hasHttpScheme (url : jsstring) : bool :=
  match eatLiteral (str "http") url with
  | Some rest =>
      match eatLiteral (str "s") rest ≫= eatLiteral (str "://") with
      | Some _ => true
      | None => bool_decide (is_Some (eatLiteral (str "://") rest))
      end
  | None => false
  end.

(** What a click on the unsubscribe button does. *)
Inductive Unsubscribed :=
| NoUrl                                  (* console.warn("No unsubscribe URL available") *)
| RelativeUrl (url : jsstring)           (* console.warn("Relative unsubscribe URL detected:", url) *)
| InvalidProtocol (url : jsstring)       (* console.warn("Invalid unsubscribe URL protocol:", url) *)
| Opened (url : jsstring)                (* window.open(url, "_blank", "noopener,noreferrer") *)
| InvalidUrl (url : jsstring).           (* alert(`Invalid unsubscribe URL: ${url}`) *)

Section Unsubscribe.

(** [new URL(url).protocol], [None] when the constructor throws. *)
Variable URL_protocol : jsstring -> option jsstring.

(** [handleUnsubscribe] *)
Definition handleUnsubscribe (unsubscribeUrl : option jsstring) : Unsubscribed :=
  match unsubscribeUrl with
  | Some (c :: u) =>
      (* let url = unsubscribeUrl.trim(); *)
      let url := trim (c :: u) in
      let withProtocol :=
        if negb (hasHttpScheme url) then
          if startsWith url (str "//") then Some (str "https:" ++ url)
          else if startsWith url (str "/") then None
          else Some (str "https://" ++ url)
        else Some url in
      match withProtocol with
      | None => RelativeUrl url
      | Some url =>
          match URL_protocol url with
          | Some protocol =>
              if eqs protocol (str "http:") || eqs protocol (str "https:")
              then Opened url else InvalidProtocol url
          | None => InvalidUrl url
          end
      end
  | _ => NoUrl
  end.

End Unsubscribe.

(** *** The sender line *)

(** [[^>]+>] at the start of [s] (what follows a [<]): what follows the
    match. *)
Definition eatTagRest (s : jsstring) : option jsstring :=
  match s with
  | c :: s' => if (c =? 62)%N then None else eatThroughGt s'
  | [] => None
  end.

(** [s.replace(/<[^>]+>/g, "")] *)
Fixpoint removeTags (fuel : nat) (s : jsstring) : jsstring :=
  match fuel with
  | O => s
  | S fuel' =>
      match s with
      | [] => []
      | c :: s' =>
          if (c =? 60)%N then
            match eatTagRest s' with
            | Some rest => removeTags fuel' rest
            | None => c :: removeTags fuel' s'
            end
          else c :: removeTags fuel' s'
      end
  end.

Definition stripTags (s : jsstring) : jsstring := removeTags (length s) s.

(** EmailViewer:
    [sender ? sender.replace(/<[^>]+>/g, "").trim() : "Unknown sender"] *)
Definition displaySender (sender : option jsstring) : jsstring :=
  match sender with
  | Some (c :: s) => trim (stripTags (c :: s))
  | _ => str "Unknown sender"
  end.

(** EmailCard: [sender && ...{sender.replace(/<[^>]+>/g, "").trim() || sender}];
    [None] when the span is not rendered. *)
Definition cardSender (sender : option jsstring) : option jsstring :=
  match sender with
  | Some (c :: s) =>
      match trim (stripTags (c :: s)) with
      | [] => Some (c :: s)
      | shown => Some shown
      end
  | _ => None
  end.

End CardActions.


(* ===================================================================== *)
(** ** The encoding that the decoders undo *)
(* ===================================================================== *)

(** The Gmail API gives the body of a message part as base64url text (RFC
    4648, section 5): this is what [decodeBase64] of EmailViewer and the
    decoder inside [extractHtml] of EmailCard are written for. *)
Module GmailEncoding.
Import JS.
Local Open Scope N_scope.

(** The base64url alphabet of RFC 4648, section 5: A-Z, a-z, 0-9, [-], [_]. *)
Definition b64urlChar (v : N) : N :=
  if v <? 26 then 65 + v
  else if v <? 52 then 97 + (v - 26)
  else if v <? 62 then 48 + (v - 52)
  else if v =? 62 then 45
  else 95.

(** Three bytes give four sextets; a rest of two bytes gives three and a rest
    of one byte gives two, filled up with zero bits. *)
Fixpoint bytesToSextets (bytes : list N) : list N :=
  match bytes with
  | a :: b :: c :: rest =>
      N.shiftr a 2 :: N.lor (N.shiftl (N.land a 3) 4) (N.shiftr b 4)
      :: N.lor (N.shiftl (N.land b 15) 2) (N.shiftr c 6) :: N.land c 63
      :: bytesToSextets rest
  | [a; b] =>
      [N.shiftr a 2; N.lor (N.shiftl (N.land a 3) 4) (N.shiftr b 4);
       N.shiftl (N.land b 15) 2]
  | [a] => [N.shiftr a 2; N.shiftl (N.land a 3) 4]
  | [] => []
  end.

(** The [data] of a message part body as the Gmail API gives it: the bytes in
    base64url, here without the [=] padding. *)
Definition encode (bytes : list N) : jsstring := map b64urlChar (bytesToSextets bytes).

(** The padding that makes the length a multiple of 4. *)
Definition padding (bytes : list N) : jsstring :=
  repeatEq ((3 - length bytes mod 3) mod 3).

End GmailEncoding.

(* ===================================================================== *)
(** * Theorems *)
(* ===================================================================== *)

Import JS Gmail.

(** ** Base64url decoding *)

Section Base64.
Local Open Scope N_scope.

Lemma replace_is_urlToStd (data : jsstring) :
  replaceChar 95 47 (replaceChar 45 43 data) = map urlToStd data.
Proof.
  unfold replaceChar. rewrite map_map. apply map_ext. intros c. unfold urlToStd.
  destruct (c =? 45) eqn:E; [reflexivity|].
  destruct (c =? 95); reflexivity.
Qed.

Lemma land_255_byte (x : N) : N.land x 255 < 256.
Proof.
  change 255 with (N.ones 8). rewrite N.land_ones.
  apply N.mod_lt. discriminate.
Qed.

Lemma sextetsToBytes_bytes (v : list N) : Forall (fun b => b < 256) (sextetsToBytes v).
Proof.
  remember (length v) as n eqn:Hn. revert v Hn.
  induction n as [n IH] using lt_wf_ind. intros v Hn.
  destruct v as [|a [|b [|c [|d rest]]]]; simpl; try constructor.
  - apply land_255_byte.
  - constructor.
  - apply land_255_byte.
  - constructor; [apply land_255_byte | constructor].
  - apply land_255_byte.
  - constructor; [apply land_255_byte|].
    constructor; [apply land_255_byte|].
    apply (IH (length rest)); [subst n; simpl; lia | reflexivity].
Qed.

(** [atob] gives a binary string: every code unit is a byte. *)
Lemma atob_bytes (s b : jsstring) : atob s = Some b -> Forall (fun c => c < 256) b.
Proof.
  unfold atob. intros H.
  repeat match type of H with context [if ?c then _ else _] => destruct c end;
    try discriminate;
    (destruct (mapM b64val _) eqn:E; simpl in H; [|discriminate];
     injection H as <-; apply sextetsToBytes_bytes).
Qed.

Lemma toUint8Array_bytes (b : jsstring) :
  Forall (fun c => c < 256) b -> toUint8Array b = b.
Proof.
  unfold toUint8Array. induction 1 as [|c l Hc _ IH]; simpl; [reflexivity|].
  rewrite IH, N.mod_small by assumption. reflexivity.
Qed.

End Base64.

(** C10: for every input string the base64url decoder of the HTML extraction
    (EmailViewer's [decodeBase64] and the same code inside EmailCard's
    [extractHtml]) returns a value and never throws: it maps [-] to [+] and [_]
    to [/], appends fewer than four [=] so that the length becomes a multiple
    of 4, and returns the UTF-8 decoding of the bytes that [atob] gives, or
    [null] when [atob] fails. *)
Theorem C10_base64url_decoder_never_throws (data : jsstring) :
  exists k : nat,
    let base64 := map urlToStd data ++ repeatEq k in
    (k < 4)%nat /\
    (length base64 mod 4 = 0)%nat /\
    (length data mod 4 = 0 -> k = 0)%nat /\
    EmailViewer.decodeBase64 data = textDecode <$> atob base64 /\
    EmailCard.decodeHtml data = textDecode <$> atob base64.
Proof.
  assert (Hdec : forall s, match atob s with
                           | Some b => Some (textDecode (toUint8Array b))
                           | None => None
                           end = textDecode <$> atob s).
  { intros s. destruct (atob s) as [b|] eqn:E; [|reflexivity].
    simpl. rewrite toUint8Array_bytes; [reflexivity | exact (atob_bytes _ _ E)]. }
  assert (Hlen : length (map urlToStd data) = length data) by apply length_map.
  pose proof (Nat.mod_upper_bound (length data) 4 ltac:(lia)) as Hm.
  destruct (Nat.eq_dec (length data mod 4) 0) as [H0|H0].
  - exists 0%nat. cbv zeta. unfold repeatEq. simpl replicate. rewrite app_nil_r.
    split; [lia|]. split; [rewrite Hlen; exact H0|]. split; [reflexivity|]. split.
    + unfold EmailViewer.decodeBase64. rewrite replace_is_urlToStd, Hlen, H0.
      simpl. apply Hdec.
    + unfold EmailCard.decodeHtml. rewrite replace_is_urlToStd, Hlen, H0.
      simpl. apply Hdec.
  - exists (4 - length data mod 4)%nat. cbv zeta.
    assert (Hp : ((4 - length data mod 4 =? 4) = false)%nat)
      by (apply Nat.eqb_neq; lia).
    split; [lia|]. split; [|split; [intros H; contradiction|split]].
    + unfold repeatEq. rewrite length_app, length_replicate, Hlen.
      rewrite (Nat.div_mod_eq (length data) 4) at 1.
      replace (4 * (length data / 4) + length data mod 4 + (4 - length data mod 4))%nat
        with ((1 + length data / 4) * 4)%nat by lia.
      apply Nat.Div0.mod_mul.
    + unfold EmailViewer.decodeBase64. rewrite replace_is_urlToStd, Hlen, Hp. apply Hdec.
    + unfold EmailCard.decodeHtml. rewrite replace_is_urlToStd, Hlen, Hp. apply Hdec.
Qed.

(** ** The payload tree *)

Section PayloadTree.
Import FindHtmlPart.

(** Induction on a payload with the parts of a part as hypotheses. *)
Lemma Part_forall_ind (P : Part -> Prop) :
  P Null ->
  (forall mimeType body parts, Forall P parts -> P (Obj mimeType body parts)) ->
  forall p, P p.
Proof.
  intros HNull HObj. fix IH 1. intros [|mimeType body parts]; [exact HNull|].
  apply HObj. induction parts as [|q parts IHparts]; constructor.
  - apply IH.
  - exact IHparts.
Qed.

Lemma startsWith_app (s p : jsstring) :
  startsWith s p = true -> exists r, s = p ++ r.
Proof.
  revert s. induction p as [|c p IH]; intros s H.
  - exists s. reflexivity.
  - destruct s as [|d s]; [discriminate|]. simpl in H.
    apply andb_true_iff in H as [Hc Hs]. apply N.eqb_eq in Hc. subst d.
    destruct (IH s Hs) as [r ->]. exists r. reflexivity.
Qed.

(** A MIME type that starts with text/plain does not start with text/html. *)
Lemma plain_not_html (m : jsstring) :
  startsWith m (str "text/plain") = true -> startsWith m (str "text/html") = false.
Proof.
  intros H. apply startsWith_app in H as [r ->]. reflexivity.
Qed.

Lemma decodeHtml_decodeBase64 (data : jsstring) :
  EmailCard.decodeHtml data = EmailViewer.decodeBase64 data.
Proof. reflexivity. Qed.

(** Only non-empty data decodes to a non-empty string. *)
Lemma truthy_decoded (data : option jsstring) :
  truthy (data ≫= EmailViewer.decodeBase64) = true -> truthy data = true.
Proof.
  destruct data as [[|c d]|]; simpl; [|reflexivity|]; intros H; discriminate H.
Qed.

Lemma contentOf_truthy prefix p x : contentOf prefix p = Some x -> truthy (Some x) = true.
Proof.
  unfold contentOf. destruct (mimeStartsWith prefix p); [|discriminate].
  destruct (truthy (decodedContent p)) eqn:E; [|discriminate].
  simpl andb. cbv iota. intros Hx. rewrite Hx in E. exact E.
Qed.

Lemma contents_truthy prefix payload x :
  x ∈ contents prefix payload -> truthy (Some x) = true.
Proof.
  unfold contents. intros H. apply list_elem_of_omap in H as (p & _ & Hp).
  exact (contentOf_truthy _ _ _ Hp).
Qed.

Lemma omap_cons_match {A B} (f : A -> option B) (x : A) (l : list A) :
  omap f (x :: l) = from_option (fun y => [y]) [] (f x) ++ omap f l.
Proof. simpl. destruct (f x); reflexivity. Qed.

Lemma contents_Obj prefix mimeType body parts :
  contents prefix (Obj mimeType body parts) =
  from_option (fun x => [x]) [] (contentOf prefix (Obj mimeType body parts))
  ++ flat_map (contents prefix) parts.
Proof.
  unfold contents. simpl dfs. rewrite omap_cons_match. f_equal.
  induction parts as [|q parts IH]; simpl; [reflexivity|].
  rewrite omap_app, IH. reflexivity.
Qed.

Lemma leafBodies_Obj mimeType body parts :
  leafBodies (Obj mimeType body parts) = true ->
  (truthy (bodyData body) = true -> parts = []) /\
  Forall (fun q => leafBodies q = true) parts.
Proof.
  unfold leafBodies. simpl dfs. simpl forallb. intros H.
  apply andb_true_iff in H as [Hroot Hparts]. split.
  - intros Hd. rewrite Hd in Hroot. simpl in Hroot.
    destruct parts; [reflexivity | discriminate].
  - clear Hroot. induction parts as [|q parts IH]; constructor.
    + simpl in Hparts. rewrite forallb_app in Hparts.
      apply andb_true_iff in Hparts as [Hq _]. exact Hq.
    + apply IH. simpl in Hparts. rewrite forallb_app in Hparts.
      apply andb_true_iff in Hparts as [_ Hr]. exact Hr.
Qed.

End PayloadTree.

(** ** Activation records *)

Section StackLaws.
Context {A B : Type}.

Lemma value_ret (a : A) : Stack.value (Stack.ret a) = a.
Proof. reflexivity. Qed.

Lemma depth_ret (a : A) : Stack.depth (Stack.ret a) = 0.
Proof. reflexivity. Qed.

Lemma value_call (m : Stack.t A) : Stack.value (Stack.call m) = Stack.value m.
Proof. destruct m; reflexivity. Qed.

Lemma depth_call (m : Stack.t A) : Stack.depth (Stack.call m) = S (Stack.depth m).
Proof. destruct m; reflexivity. Qed.

Lemma value_bind (m : Stack.t A) (f : A -> Stack.t B) :
  Stack.value (Stack.bind m f) = Stack.value (f (Stack.value m)).
Proof. destruct m as [a d]. simpl. destruct (f a); reflexivity. Qed.

Lemma depth_bind (m : Stack.t A) (f : A -> Stack.t B) :
  Stack.depth (Stack.bind m f) = Nat.max (Stack.depth m) (Stack.depth (f (Stack.value m))).
Proof. destruct m as [a d]. simpl. destruct (f a); reflexivity. Qed.

End StackLaws.

(** ** What the two extractors return *)

Section Extractors.
Import FindHtmlPart.

Lemma card_extractHtml_Obj mimeType body parts :
  EmailCard.extractHtml (Obj mimeType body parts) =
  if startsWith (default [] mimeType) (str "text/html") && truthy (bodyData body)
  then Stack.ret (bodyData body ≫= EmailCard.decodeHtml)
  else EmailCard.forParts parts.
Proof. reflexivity. Qed.

Lemma viewer_extractHtml_Obj mimeType body parts :
  EmailViewer.extractHtml (Obj mimeType body parts) =
  let decoded := bodyData body ≫= EmailViewer.decodeBase64 in
  if startsWith (default [] mimeType) (str "text/html") && truthy (bodyData body)
     && truthy decoded
  then Stack.ret (EmailViewer.mkExtracted decoded None)
  else if startsWith (default [] mimeType) (str "text/plain") && truthy (bodyData body)
          && truthy decoded
  then Stack.ret (EmailViewer.mkExtracted None decoded)
  else EmailViewer.forParts parts None None.
Proof. reflexivity. Qed.

Lemma Forall_mp {X} (P Q : X -> Prop) (l : list X) :
  Forall (fun x => P x -> Q x) l -> Forall P l -> Forall Q l.
Proof.
  induction 1 as [|x l Hx _ IH]; intros HP; [constructor|].
  inversion HP; subst. constructor; auto.
Qed.

Lemma last_contents_truthy prefix p :
  truthy (last (contents prefix p)) = false -> contents prefix p = [].
Proof.
  intros H. destruct (last (contents prefix p)) as [x|] eqn:E.
  - assert (Hx : x ∈ contents prefix p).
    { apply last_Some in E as [l' ->]. apply elem_of_app. right.
      apply list_elem_of_singleton. reflexivity. }
    apply contents_truthy in Hx. congruence.
  - apply last_None in E. exact E.
Qed.

Lemma head_contents_truthy prefix p :
  truthy (head (contents prefix p)) = false -> head (contents prefix p) = None.
Proof.
  intros H. destruct (contents prefix p) as [|x l] eqn:E; [reflexivity|].
  assert (Hx : x ∈ contents prefix p) by (rewrite E; left).
  apply contents_truthy in Hx. cbn [hd_error] in H. congruence.
Qed.

(** A part that [extractHtml] does not take as an HTML part has no HTML
    content of its own. *)
Lemma not_taken_no_content prefix mimeType body parts :
  startsWith (default [] mimeType) (str prefix) && truthy (bodyData body)
    && truthy (bodyData body ≫= EmailViewer.decodeBase64) = false ->
  contentOf prefix (Obj mimeType body parts) = None.
Proof.
  intros Hc. unfold contentOf. simpl mimeStartsWith. simpl decodedContent.
  destruct (startsWith (default [] mimeType) (str prefix)); [|reflexivity].
  destruct (truthy (bodyData body ≫= EmailViewer.decodeBase64)) eqn:E; [|reflexivity].
  rewrite (truthy_decoded _ E) in Hc. discriminate.
Qed.

(** The loop of EmailCard's [extractHtml] returns the first content found. *)
Lemma card_forParts (ps : list Part) :
  Forall (fun p => nonEmpty (Stack.value (EmailCard.extractHtml p))
                   = head (contents "text/html" p)) ps ->
  nonEmpty (Stack.value (EmailCard.forParts ps))
  = head (flat_map (contents "text/html") ps).
Proof.
  induction 1 as [|q ps Hq _ IH]; [reflexivity|].
  simpl EmailCard.forParts. simpl flat_map. rewrite head_app, <- Hq, <- IH.
  rewrite value_bind, value_call.
  destruct (truthy (Stack.value (EmailCard.extractHtml q))) eqn:Ht.
  - rewrite value_ret. unfold nonEmpty. rewrite Ht.
    destruct (Stack.value (EmailCard.extractHtml q)); [reflexivity | discriminate].
  - unfold nonEmpty at 2. rewrite Ht. reflexivity.
Qed.

(** EmailCard's [extractHtml] returns the first HTML content of the payload
    in depth-first order, an empty result standing for none. *)
Lemma card_value (p : Part) :
  leafBodies p = true ->
  nonEmpty (Stack.value (EmailCard.extractHtml p)) = head (contents "text/html" p).
Proof.
  induction p as [|mimeType body parts IH] using Part_forall_ind; intros Hleaf.
  - reflexivity.
  - apply leafBodies_Obj in Hleaf as [Hnil Hparts].
    rewrite contents_Obj, card_extractHtml_Obj.
    destruct (startsWith (default [] mimeType) (str "text/html")
              && truthy (bodyData body)) eqn:Hc.
    + apply andb_true_iff in Hc as [Hm Hd]. rewrite (Hnil Hd). simpl flat_map.
      rewrite app_nil_r. unfold contentOf. simpl mimeStartsWith. rewrite Hm.
      simpl decodedContent. rewrite value_ret.
      change EmailCard.decodeHtml with EmailViewer.decodeBase64.
      destruct (bodyData body ≫= EmailViewer.decodeBase64) as [[|c d]|]; reflexivity.
    + rewrite not_taken_no_content by (rewrite Hc; reflexivity).
      simpl app. apply card_forParts. exact (Forall_mp _ _ _ IH Hparts).
Qed.

(** The loop of EmailViewer's [extractHtml] keeps the last HTML content and,
    while there is no HTML, the first plain text. *)
Lemma viewer_forParts (ps : list Part) :
  Forall (fun p =>
            EmailViewer.html (Stack.value (EmailViewer.extractHtml p))
            = last (contents "text/html" p) /\
            (contents "text/html" p = [] ->
             EmailViewer.text (Stack.value (EmailViewer.extractHtml p))
             = head (contents "text/plain" p))) ps ->
  forall h t,
    EmailViewer.html (Stack.value (EmailViewer.forParts ps h t))
    = match last (flat_map (contents "text/html") ps) with
      | Some y => Some y
      | None => h
      end /\
    (flat_map (contents "text/html") ps = [] ->
     t = None \/ truthy t = true ->
     EmailViewer.text (Stack.value (EmailViewer.forParts ps h t))
     = if truthy t then t else head (flat_map (contents "text/plain") ps)).
Proof.
  induction 1 as [|q ps [Hq Htq] _ IH]; intros h t.
  - simpl. split; [reflexivity|]. intros _ [->|Ht]; [reflexivity|].
    destruct t as [[|c s]|]; [discriminate | reflexivity | reflexivity].
  - simpl EmailViewer.forParts. simpl flat_map.
    rewrite value_bind, value_call.
    set (r := Stack.value (EmailViewer.extractHtml q)) in *.
    destruct (truthy (EmailViewer.html r)) eqn:Hh.
    + destruct (IH (EmailViewer.html r) t) as [IHh _]. rewrite IHh, last_app. split.
      * destruct (last (flat_map (contents "text/html") ps)); [reflexivity|].
        rewrite <- Hq. destruct (EmailViewer.html r); [reflexivity | discriminate].
      * intros Hnil. apply app_eq_nil in Hnil as [Hnil _].
        rewrite Hq, Hnil in Hh. discriminate.
    + rewrite Hq in Hh. apply last_contents_truthy in Hh.
      specialize (Htq Hh). rewrite Hh. simpl app.
      destruct (truthy (EmailViewer.text r) && negb (truthy t)) eqn:Ht.
      * apply andb_true_iff in Ht as [Ht1 Ht2]. apply negb_true_iff in Ht2.
        destruct (IH h (EmailViewer.text r)) as [IHh IHt]. split; [exact IHh|].
        intros Hnil _. rewrite (IHt Hnil (or_intror Ht1)), Ht1, Ht2, head_app, <- Htq.
        destruct (EmailViewer.text r); [reflexivity | discriminate].
      * destruct (IH h t) as [IHh IHt]. split; [exact IHh|].
        intros Hnil Hor. rewrite (IHt Hnil Hor). destruct (truthy t) eqn:Et; [reflexivity|].
        simpl in Ht. rewrite andb_true_r in Ht. rewrite Htq in Ht.
        apply head_contents_truthy in Ht. rewrite head_app, Ht. reflexivity.
Qed.

(** EmailViewer's [extractHtml] returns the last HTML content of the payload
    in depth-first order and, when there is none, the first plain text. *)
Lemma viewer_value (p : Part) :
  leafBodies p = true ->
  EmailViewer.html (Stack.value (EmailViewer.extractHtml p))
  = last (contents "text/html" p) /\
  (contents "text/html" p = [] ->
   EmailViewer.text (Stack.value (EmailViewer.extractHtml p))
   = head (contents "text/plain" p)).
Proof.
  induction p as [|mimeType body parts IH] using Part_forall_ind; intros Hleaf.
  - split; reflexivity.
  - apply leafBodies_Obj in Hleaf as [Hnil Hparts].
    rewrite !contents_Obj, viewer_extractHtml_Obj. cbv zeta.
    set (decoded := bodyData body ≫= EmailViewer.decodeBase64).
    destruct (startsWith (default [] mimeType) (str "text/html")
              && truthy (bodyData body) && truthy decoded) eqn:Hc1.
    { apply andb_true_iff in Hc1 as [Hc1 Hd]. apply andb_true_iff in Hc1 as [Hm Hdata].
      rewrite (Hnil Hdata). unfold contentOf. simpl mimeStartsWith. simpl decodedContent.
      fold decoded. rewrite Hm, Hd. simpl.
      destruct decoded; [split; [reflexivity | discriminate] | discriminate]. }
    rewrite (not_taken_no_content "text/html") by exact Hc1.
    destruct (startsWith (default [] mimeType) (str "text/plain")
              && truthy (bodyData body) && truthy decoded) eqn:Hc2.
    { apply andb_true_iff in Hc2 as [Hc2 Hd]. apply andb_true_iff in Hc2 as [Hm Hdata].
      rewrite (Hnil Hdata). unfold contentOf. simpl mimeStartsWith. simpl decodedContent.
      fold decoded. rewrite Hm, Hd. simpl.
      destruct decoded; [split; reflexivity | discriminate]. }
    rewrite (not_taken_no_content "text/plain") by exact Hc2.
    simpl app.
    assert (Hall : Forall (fun p =>
              EmailViewer.html (Stack.value (EmailViewer.extractHtml p))
              = last (contents "text/html" p) /\
              (contents "text/html" p = [] ->
               EmailViewer.text (Stack.value (EmailViewer.extractHtml p))
               = head (contents "text/plain" p))) parts).
    { exact (Forall_mp _ _ _ IH Hparts). }
    destruct (viewer_forParts parts Hall None None) as [Hh Ht]. split.
    + rewrite Hh. destruct (last (flat_map (contents "text/html") parts)); reflexivity.
    + intros Hn. rewrite (Ht Hn (or_introl eq_refl)). reflexivity.
Qed.

End Extractors.

(** ** Depth of the recursion *)

Section Recursion.
Import FindHtmlPart.

Lemma card_forParts_depth (ps : list Part) :
  Forall (fun p => Stack.depth (EmailCard.extractHtml p) <= height p) ps ->
  Stack.depth (EmailCard.forParts ps) <= S (foldr Nat.max 0 (map height ps)).
Proof.
  induction 1 as [|q ps Hq _ IH]; [simpl; lia|].
  simpl EmailCard.forParts. rewrite depth_bind, depth_call. simpl map. simpl foldr.
  destruct (truthy _); [rewrite depth_ret|]; lia.
Qed.

Lemma card_depth (p : Part) : Stack.depth (EmailCard.extractHtml p) <= height p.
Proof.
  induction p as [|mimeType body parts IH] using Part_forall_ind; [reflexivity|].
  rewrite card_extractHtml_Obj. simpl height.
  destruct (_ && _); [rewrite depth_ret; lia|].
  pose proof (card_forParts_depth parts IH).
  destruct parts; [simpl; lia|]. simpl in *. lia.
Qed.

Lemma viewer_forParts_depth (ps : list Part) :
  Forall (fun p => Stack.depth (EmailViewer.extractHtml p) <= height p) ps ->
  forall h t,
    Stack.depth (EmailViewer.forParts ps h t) <= S (foldr Nat.max 0 (map height ps)).
Proof.
  induction 1 as [|q ps Hq _ IH]; intros h t; [simpl; lia|].
  simpl EmailViewer.forParts. rewrite depth_bind, depth_call, value_call.
  simpl map. simpl foldr.
  set (r := Stack.value (EmailViewer.extractHtml q)).
  pose proof (IH (EmailViewer.html r) t). pose proof (IH h (EmailViewer.text r)).
  pose proof (IH h t).
  destruct (truthy (EmailViewer.html r)); [lia|].
  destruct (truthy (EmailViewer.text r) && negb (truthy t)); lia.
Qed.

Lemma viewer_depth (p : Part) : Stack.depth (EmailViewer.extractHtml p) <= height p.
Proof.
  induction p as [|mimeType body parts IH] using Part_forall_ind; [reflexivity|].
  rewrite viewer_extractHtml_Obj. cbv zeta. simpl height.
  destruct (_ && _); [rewrite depth_ret; lia|].
  destruct (_ && _); [rewrite depth_ret; lia|].
  apply viewer_forParts_depth, IH.
Qed.

Lemma height_nested (n : nat) : height (nested n) = S n.
Proof. induction n as [|n IH]; [reflexivity|]. simpl nested. simpl height. rewrite IH. lia. Qed.

(** On a chain of containers every level of the payload is one more
    activation. *)
Lemma depth_nested (n : nat) :
  Stack.depth (EmailCard.extractHtml (nested n)) = n /\
  Stack.depth (EmailViewer.extractHtml (nested n)) = n /\
  Stack.value (EmailCard.extractHtml (nested n)) = None /\
  Stack.value (EmailViewer.extractHtml (nested n)) = EmailViewer.mkExtracted None None.
Proof.
  induction n as [|n (IHc & IHv & IHcv & IHvv)]; [repeat split|].
  simpl nested. rewrite card_extractHtml_Obj, viewer_extractHtml_Obj.
  change (startsWith (default [] (Some (str "multipart/mixed"))) (str "text/html")) with false.
  change (startsWith (default [] (Some (str "multipart/mixed"))) (str "text/plain")) with false.
  cbv zeta. simpl andb. cbv iota.
  simpl EmailCard.forParts. simpl EmailViewer.forParts.
  rewrite !depth_bind, !value_bind, !depth_call, !value_call, IHc, IHv, IHcv, IHvv.
  simpl. repeat split; lia.
Qed.

(** C7, as the code has it: the traversal of both extractors is recursive;
    the number of activations of [extractHtml] on the stack (the first call
    included) is at most one more than the height of the payload tree, and on
    a chain of [n] nested containers all [n + 1] levels are on the stack at
    once.  So the call returns its result on a stack that has room for one
    activation more than the height of the tree, and on a stack with room
    for [n] activations the chain of [n] containers, a finite tree, ends in a
    RangeError. *)
Theorem C7_recursive_traversal_depth (payload : Part) (n limit : nat) :
  Stack.depth (Stack.call (EmailCard.extractHtml payload)) <= S (height payload) /\
  Stack.depth (Stack.call (EmailViewer.extractHtml payload)) <= S (height payload) /\
  Stack.depth (Stack.call (EmailCard.extractHtml (nested n))) = height (nested n) /\
  Stack.depth (Stack.call (EmailViewer.extractHtml (nested n))) = height (nested n) /\
  (S (height payload) <= limit ->
   Stack.within limit (Stack.call (EmailCard.extractHtml payload))
   = Some (Stack.value (EmailCard.extractHtml payload)) /\
   Stack.within limit (Stack.call (EmailViewer.extractHtml payload))
   = Some (Stack.value (EmailViewer.extractHtml payload))) /\
  Stack.within n (Stack.call (EmailCard.extractHtml (nested n))) = None /\
  Stack.within n (Stack.call (EmailViewer.extractHtml (nested n))) = None.
Proof.
  unfold Stack.within. rewrite !depth_call, !value_call, height_nested.
  destruct (depth_nested n) as (Hc & Hv & _). rewrite Hc, Hv.
  pose proof (card_depth payload) as Hcd. pose proof (viewer_depth payload) as Hvd.
  split; [lia|]. split; [lia|]. split; [reflexivity|]. split; [reflexivity|].
  split.
  - intros Hlimit.
    rewrite !(proj2 (Nat.leb_le _ _)) by lia. split; reflexivity.
  - rewrite (proj2 (Nat.leb_gt _ _)) by lia. split; reflexivity.
Qed.

(** C7, refuted as stated: the stack depth is not bounded.  A payload of 1000
    nested containers puts 1001 activations of [extractHtml] on the stack, in
    EmailCard and in EmailViewer, and every bound is exceeded by some
    payload. *)
Lemma C7_stack_depth_is_unbounded :
  Stack.depth (Stack.call (EmailCard.extractHtml (nested 1000))) = 1001 /\
  Stack.depth (Stack.call (EmailViewer.extractHtml (nested 1000))) = 1001 /\
  (forall bound : nat, exists payload : Part,
     bound < Stack.depth (Stack.call (EmailCard.extractHtml payload)) /\
     bound < Stack.depth (Stack.call (EmailViewer.extractHtml payload))).
Proof.
  rewrite !depth_call. destruct (depth_nested 1000) as (-> & -> & _).
  split; [reflexivity|]. split; [reflexivity|].
  intros bound. exists (nested bound). rewrite !depth_call.
  destruct (depth_nested bound) as (-> & -> & _). lia.
Qed.

End Recursion.

(** ** First or last HTML part *)

Section FirstOrLast.
Import FindHtmlPart.

Lemma omap_ext_Forall {X Y} (f g : X -> option Y) (l : list X) :
  Forall (fun x => f x = g x) l -> omap f l = omap g l.
Proof.
  induction 1 as [|x l Hx _ IH]; [reflexivity|].
  rewrite !omap_cons_match, Hx, IH. reflexivity.
Qed.

(** With body data on leaves only, the HTML contents are those of leaves. *)
Lemma firstHtmlLeaf_contents (payload : Part) :
  leafBodies payload = true ->
  firstHtmlLeaf payload = head (contents "text/html" payload).
Proof.
  intros Hleaf. unfold firstHtmlLeaf, contents. f_equal.
  apply omap_ext_Forall. unfold leafBodies in Hleaf.
  rewrite forallb_forall in Hleaf. apply Forall_forall. intros q Hq.
  apply list_elem_of_In in Hq. specialize (Hleaf q Hq).
  destruct q as [|mimeType body parts]; [reflexivity|].
  destruct (isLeaf (Obj mimeType body parts)) eqn:El; [reflexivity|].
  rewrite orb_false_r in Hleaf. apply negb_true_iff in Hleaf.
  symmetry. apply not_taken_no_content. rewrite Hleaf, andb_false_r. reflexivity.
Qed.

(** C6 at the failing input: for a message with the two HTML parts <p>A</p>
    and <p>B</p>, the first HTML leaf in depth-first order is <p>A</p>, which
    EmailCard's [extractHtml] returns, and EmailViewer's [extractHtml] returns
    <p>B</p>, the last one. *)
Theorem C6_viewer_returns_last_html_part :
  firstHtmlLeaf twoHtmlParts = Some (str "<p>A</p>") /\
  Stack.value (EmailCard.extractHtml twoHtmlParts) = Some (str "<p>A</p>") /\
  EmailViewer.html (Stack.value (EmailViewer.extractHtml twoHtmlParts))
  = Some (str "<p>B</p>").
Proof. vm_compute. repeat split. Qed.

End FirstOrLast.

(** ** The two extractors side by side *)

Section SideBySide.
Import FindHtmlPart.

Variable JSON_parse_payload : jsstring -> option Part.

(** What EmailCard's [extractHtmlFromRawJson] returns without [htmlBody]. *)
Lemma card_fromRawJson (raw : jsstring) (payload : Part) :
  raw <> [] ->
  JSON_parse_payload raw = Some payload ->
  leafBodies payload = true ->
  nonEmpty (EmailCard.extractHtmlFromRawJson JSON_parse_payload None (Some raw))
  = head (contents "text/html" payload).
Proof.
  intros Hraw Hparse Hleaf. unfold EmailCard.extractHtmlFromRawJson.
  destruct raw as [|c raw]; [contradiction|]. simpl. rewrite Hparse.
  destruct payload as [|mimeType body parts]; [reflexivity|].
  rewrite value_call. apply card_value, Hleaf.
Qed.

(** What EmailViewer's [extractHtmlFromRawJson] returns without [htmlBody]. *)
Lemma viewer_fromRawJson (raw : jsstring) (payload : Part) :
  raw <> [] ->
  JSON_parse_payload raw = Some payload ->
  leafBodies payload = true ->
  EmailViewer.extractHtmlFromRawJson JSON_parse_payload None (Some raw)
  = match last (contents "text/html" payload) with
    | Some h => Some h
    | None => head (contents "text/plain" payload)
    end.
Proof.
  intros Hraw Hparse Hleaf. unfold EmailViewer.extractHtmlFromRawJson.
  destruct raw as [|c raw]; [contradiction|]. simpl. rewrite Hparse.
  destruct payload as [|mimeType body parts]; [reflexivity|].
  rewrite value_call. destruct (viewer_value _ Hleaf) as [Hh Ht].
  unfold or_else. rewrite Hh.
  destruct (last (contents "text/html" (Obj mimeType body parts))) as [h|] eqn:El.
  - assert (Hin : h ∈ contents "text/html" (Obj mimeType body parts)).
    { apply last_Some in El as [l' ->]. apply elem_of_app. right.
      apply list_elem_of_singleton. reflexivity. }
    rewrite (contents_truthy _ _ _ Hin). reflexivity.
  - simpl. apply Ht. apply last_None in El. exact El.
Qed.

(** C8, as the code has it: for a raw payload (no [htmlBody]) whose body data
    sits on leaf parts, the two functions return the same content when exactly
    one part carries text/html content; when no part carries text/html content
    EmailViewer returns the first text/plain content (or null) and EmailCard
    returns null or an empty string. *)
Theorem C8_same_result_for_one_html_part (raw : jsstring) (payload : Part) :
  raw <> [] ->
  JSON_parse_payload raw = Some payload ->
  leafBodies payload = true ->
  (forall h, contents "text/html" payload = [h] ->
     EmailViewer.extractHtmlFromRawJson JSON_parse_payload None (Some raw) = Some h /\
     EmailCard.extractHtmlFromRawJson JSON_parse_payload None (Some raw) = Some h) /\
  (contents "text/html" payload = [] ->
     EmailViewer.extractHtmlFromRawJson JSON_parse_payload None (Some raw)
     = head (contents "text/plain" payload) /\
     nonEmpty (EmailCard.extractHtmlFromRawJson JSON_parse_payload None (Some raw)) = None).
Proof.
  intros Hraw Hparse Hleaf.
  pose proof (card_fromRawJson raw payload Hraw Hparse Hleaf) as Hc.
  pose proof (viewer_fromRawJson raw payload Hraw Hparse Hleaf) as Hv.
  split.
  - intros h Hone. rewrite Hone in Hc, Hv. simpl in Hc, Hv. split; [exact Hv|].
    unfold nonEmpty in Hc. destruct (truthy _); [exact Hc | discriminate].
  - intros Hnone. rewrite Hnone in Hc, Hv. simpl in Hc, Hv. split; assumption.
Qed.

End SideBySide.

(** C8 on the usual multipart/alternative message (plain text, then HTML):
    both functions return the HTML <p>A</p>. *)
Lemma C8_same_result_witness :
  EmailViewer.extractHtmlFromRawJson (fun _ => Some FindHtmlPart.textAndHtml) None
    (Some (str "{}")) = Some (str "<p>A</p>") /\
  EmailCard.extractHtmlFromRawJson (fun _ => Some FindHtmlPart.textAndHtml) None
    (Some (str "{}")) = Some (str "<p>A</p>").
Proof.
  refine (proj1 (C8_same_result_for_one_html_part
                   (fun _ => Some FindHtmlPart.textAndHtml) (str "{}")
                   FindHtmlPart.textAndHtml _ eq_refl eq_refl) (str "<p>A</p>") eq_refl).
  discriminate.
Defined.

(** C8, refuted as stated: with two text/html parts EmailViewer returns the
    last (<p>B</p>) and EmailCard the first (<p>A</p>); with text/plain content
    only EmailViewer returns the text ("Hello") and EmailCard returns null. *)
Lemma C8_results_differ :
  EmailViewer.extractHtmlFromRawJson (fun _ => Some FindHtmlPart.twoHtmlParts) None
    (Some (str "{}")) = Some (str "<p>B</p>") /\
  EmailCard.extractHtmlFromRawJson (fun _ => Some FindHtmlPart.twoHtmlParts) None
    (Some (str "{}")) = Some (str "<p>A</p>") /\
  EmailViewer.extractHtmlFromRawJson (fun _ => Some FindHtmlPart.plainTextOnly) None
    (Some (str "{}")) = Some (str "Hello") /\
  EmailCard.extractHtmlFromRawJson (fun _ => Some FindHtmlPart.plainTextOnly) None
    (Some (str "{}")) = None.
Proof. vm_compute. repeat split. Qed.

(** ** EmailCard returns the first HTML leaf *)

(** For a payload whose body data sits on leaf parts, EmailCard's
    [extractHtml] returns the decoded content of the first text/html leaf in
    depth-first order, and nothing (null or an empty string) when there is
    none. *)
Theorem card_returns_first_html_leaf (payload : Part) :
  FindHtmlPart.leafBodies payload = true ->
  FindHtmlPart.nonEmpty (Stack.value (EmailCard.extractHtml payload))
  = FindHtmlPart.firstHtmlLeaf payload.
Proof.
  intros Hleaf. rewrite firstHtmlLeaf_contents by exact Hleaf. apply card_value, Hleaf.
Qed.

Lemma card_returns_first_html_leaf_witness :
  FindHtmlPart.nonEmpty (Stack.value (EmailCard.extractHtml FindHtmlPart.twoHtmlParts))
  = FindHtmlPart.firstHtmlLeaf FindHtmlPart.twoHtmlParts.
Proof. exact (card_returns_first_html_leaf FindHtmlPart.twoHtmlParts eq_refl). Defined.

(** For such a payload EmailViewer's [extractHtml] returns the content of the
    last text/html part in depth-first order as [html], and without any
    text/html part the first text/plain content as [text]. *)
Theorem viewer_returns_last_html_part (payload : Part) :
  FindHtmlPart.leafBodies payload = true ->
  EmailViewer.html (Stack.value (EmailViewer.extractHtml payload))
  = last (FindHtmlPart.contents "text/html" payload) /\
  (FindHtmlPart.contents "text/html" payload = [] ->
   EmailViewer.text (Stack.value (EmailViewer.extractHtml payload))
   = head (FindHtmlPart.contents "text/plain" payload)).
Proof. apply viewer_value. Qed.

Lemma viewer_returns_last_html_part_witness :
  EmailViewer.html (Stack.value (EmailViewer.extractHtml FindHtmlPart.twoHtmlParts))
  = last (FindHtmlPart.contents "text/html" FindHtmlPart.twoHtmlParts).
Proof. exact (proj1 (viewer_returns_last_html_part FindHtmlPart.twoHtmlParts eq_refl)). Defined.

(** ** The sanitiser of EmailCard *)

Section Sanitizer.
Import EmailCard.

(** Induction on a node with the child nodes as hypotheses. *)
Lemma Node_forall_ind (P : Node -> Prop) :
  (forall d, P (TextNode d)) ->
  (forall d, P (CommentNode d)) ->
  (forall h ln attrs cs, Forall P cs -> P (Element h ln attrs cs)) ->
  (forall attrs c, P (Template attrs c)) ->
  forall n, P n.
Proof.
  intros HT HC HE HTe. fix IH 1.
  intros [d|d|h ln attrs cs|attrs c]; [apply HT | apply HC | | apply HTe].
  apply HE. induction cs as [|c cs IHcs]; constructor; [apply IH | exact IHcs].
Qed.

(** *** Attributes *)

Lemma eqs_true (a b : jsstring) : eqs a b = true <-> a = b.
Proof. unfold eqs. apply bool_decide_eq_true. Qed.

Lemma eqs_false (a b : jsstring) : eqs a b = false <-> a <> b.
Proof. unfold eqs. apply bool_decide_eq_false. Qed.

(** The names that the loop over the attributes removes. *)
Local Abbreviation removed name :=
  (startsWith name (str "on") || eqs name (str "javascript")
   || eqs name (str "class") || eqs name (str "id")).

Lemma removeAttribute_first name v (kept rest : list (jsstring * jsstring)) :
  Forall (fun a => fst a <> name) kept ->
  removeAttribute name (kept ++ (name, v) :: rest) = kept ++ rest.
Proof.
  induction 1 as [|[k w] kept Hk _ IH]; simpl.
  - assert (eqs name name = true) as -> by (apply eqs_true; reflexivity). reflexivity.
  - simpl in Hk. apply eqs_false in Hk. rewrite Hk, IH. reflexivity.
Qed.

Lemma on_is_not_class_or_id (name : jsstring) :
  startsWith name (str "on") = true ->
  eqs name (str "class") = false /\ eqs name (str "id") = false.
Proof.
  intros H. apply startsWith_app in H as [r ->].
  split; apply eqs_false; discriminate.
Qed.

(** One step of the loop: the attribute at hand is the first of the
    attributes still to visit, and no attribute kept so far has a name that
    the loop removes. *)
Lemma dropDangerous_step (kept rest : list (jsstring * jsstring)) (attr : jsstring * jsstring) :
  Forall (fun a => removed (fst a) = false) kept ->
  exists kept',
    dropDangerous (kept ++ attr :: rest) attr = kept' ++ rest /\
    Forall (fun a => removed (fst a) = false) kept'.
Proof.
  intros Hkept. destruct attr as [name v]. unfold dropDangerous. simpl fst.
  assert (Hne : removed name = true -> Forall (fun a => fst a <> name) kept).
  { intros Hr. eapply Forall_impl; [exact Hkept|]. intros a Ha Heq.
    cbv beta in Ha. rewrite Heq in Ha. congruence. }
  destruct (startsWith name (str "on")) eqn:Hon.
  - destruct (on_is_not_class_or_id _ Hon) as [-> ->]. simpl.
    exists kept. split; [|exact Hkept]. apply removeAttribute_first, Hne. reflexivity.
  - destruct (eqs name (str "javascript")) eqn:Hjs.
    + apply eqs_true in Hjs. subst name. simpl.
      exists kept. split; [|exact Hkept]. apply removeAttribute_first.
      eapply Forall_impl; [exact Hkept|]. intros a Ha Heq. cbv beta in Ha. rewrite Heq in Ha. discriminate.
    + simpl orb. cbv iota. destruct (eqs name (str "class")) eqn:Hc.
      * apply eqs_true in Hc. subst name. simpl.
        exists kept. split; [|exact Hkept]. apply removeAttribute_first.
        eapply Forall_impl; [exact Hkept|]. intros a Ha Heq. cbv beta in Ha. rewrite Heq in Ha. discriminate.
      * destruct (eqs name (str "id")) eqn:Hi.
        -- apply eqs_true in Hi. subst name.
           exists kept. split; [|exact Hkept]. apply removeAttribute_first.
           eapply Forall_impl; [exact Hkept|]. intros a Ha Heq. cbv beta in Ha. rewrite Heq in Ha. discriminate.
        -- exists (kept ++ [(name, v)]). split; [rewrite <- app_assoc; reflexivity|].
           apply Forall_app_2; [exact Hkept|]. constructor; [|constructor].
           simpl. rewrite Hon, Hjs, Hc, Hi. reflexivity.
Qed.

Lemma dropDangerous_loop (rest kept : list (jsstring * jsstring)) :
  Forall (fun a => removed (fst a) = false) kept ->
  Forall (fun a => removed (fst a) = false) (fold_left dropDangerous rest (kept ++ rest)).
Proof.
  revert kept. induction rest as [|attr rest IH]; intros kept Hkept.
  - simpl. rewrite app_nil_r. exact Hkept.
  - simpl fold_left. destruct (dropDangerous_step kept rest attr Hkept) as (kept' & -> & Hk').
    apply IH, Hk'.
Qed.

Lemma removed_dangerous (attrs : list (jsstring * jsstring)) :
  Forall (fun a => removed (fst a) = false) attrs ->
  Forall (fun a => dangerousName (fst a) = false) attrs.
Proof.
  intros H. eapply Forall_impl; [exact H|]. intros a Ha. cbv beta in Ha.
  unfold dangerousName.
  destruct (startsWith (fst a) (str "on")); [discriminate|].
  destruct (eqs (fst a) (str "javascript")); [discriminate|]. exact Ha.
Qed.

Lemma setAttribute_safe name value (attrs : list (jsstring * jsstring)) :
  dangerousName name = false ->
  Forall (fun a => dangerousName (fst a) = false) attrs ->
  Forall (fun a => dangerousName (fst a) = false) (setAttribute name value attrs).
Proof.
  intros Hn. induction 1 as [|[k v] attrs Hk Hrest IH]; simpl.
  - constructor; [exact Hn | constructor].
  - destruct (eqs k name); constructor; simpl in *; assumption.
Qed.

Lemma removeAttribute_safe name (attrs : list (jsstring * jsstring)) :
  Forall (fun a => dangerousName (fst a) = false) attrs ->
  Forall (fun a => dangerousName (fst a) = false) (removeAttribute name attrs).
Proof.
  induction 1 as [|[k v] attrs Hk Hrest IH]; simpl; [constructor|].
  destruct (eqs k name); [assumption | constructor; assumption].
Qed.

(** After [cleanAttributes] no attribute has a dangerous name. *)
Lemma cleanAttributes_safe cleanStyle isImg (attrs : list (jsstring * jsstring)) :
  Forall (fun a => dangerousName (fst a) = false) (cleanAttributes cleanStyle isImg attrs).
Proof.
  unfold cleanAttributes.
  pose proof (removed_dangerous _ (dropDangerous_loop attrs [] (Forall_nil_2 _))) as H0.
  simpl app in H0.
  set (a0 := fold_left dropDangerous attrs attrs) in *.
  cbv zeta.
  match goal with
  | |- Forall _ (match getAttribute _ ?a with _ => _ end) => set (a1 := a)
  end.
  assert (H1 : Forall (fun a => dangerousName (fst a) = false) a1).
  { subst a1. destruct isImg; [|exact H0]. repeat apply setAttribute_safe; auto. }
  destruct (getAttribute (str "style") a1); [|exact H1].
  destruct (0 <? length _); [apply setAttribute_safe | apply removeAttribute_safe]; auto.
Qed.


(** *** Elements *)

Lemma Forall_flat_map_2 {X Y} (P : Y -> Prop) (f : X -> list Y) (l : list X) :
  Forall (fun x => Forall P (f x)) l -> Forall P (flat_map f l).
Proof. apply Forall_flat_map. Qed.

Lemma Forall_flat_map_1 {X Y} (P : Y -> Prop) (f : X -> list Y) (l : list X) :
  Forall P (flat_map f l) -> Forall (fun x => Forall P (f x)) l.
Proof. apply Forall_flat_map. Qed.

Lemma Forall_flat_map_twice {X Y Z} (P : Z -> Prop) (f : X -> list Y) (g : Y -> list Z)
    (l : list X) :
  Forall (fun x => Forall P (flat_map g (f x))) l -> Forall P (flat_map g (flat_map f l)).
Proof.
  induction 1 as [|x l Hx _ IH]; [constructor|].
  simpl. rewrite flat_map_app. apply Forall_app_2; assumption.
Qed.

(** A [template] element has neither text nor child elements: it is dropped
    as an empty element. *)
Lemma removeEmptyNode_template attrs c : removeEmptyNode (Template attrs c) = [].
Proof. reflexivity. Qed.

Section Kept.

(** A property of elements that looks at neither attributes nor children. *)
Variable Q : Node -> Prop.
Hypothesis Q_element :
  forall h ln attrs cs attrs' cs', Q (Element h ln attrs cs) -> Q (Element h ln attrs' cs').
Hypothesis Q_template :
  forall attrs attrs' c, Q (Template attrs c) -> Q (Template attrs' c).

Lemma removeAll_keeps name (n : Node) :
  Forall Q (descendantsOf n) -> Forall Q (flat_map descendantsOf (removeAll name n)).
Proof.
  induction n as [d|d|h ln attrs cs IH|attrs c] using Node_forall_ind; intros H.
  - constructor.
  - constructor.
  - simpl removeAll. destruct (eqs ln name); [constructor|].
    simpl. rewrite app_nil_r. simpl in H. inversion H as [|? ? Hq Hcs]; subst.
    constructor; [exact (Q_element _ _ _ _ _ _ Hq)|].
    apply Forall_flat_map_twice.
    apply (Forall_mp _ _ _ IH). apply Forall_flat_map_1. exact Hcs.
  - simpl removeAll. destruct (eqs _ name); [constructor|].
    simpl. exact H.
Qed.

Lemma removeEmptyNode_keeps (n : Node) :
  Forall Q (descendantsOf n) -> Forall Q (flat_map descendantsOf (removeEmptyNode n)).
Proof.
  induction n as [d|d|h ln attrs cs IH|attrs c] using Node_forall_ind; intros H.
  - constructor.
  - constructor.
  - simpl removeEmptyNode. destruct (isEmptyElement _); [constructor|].
    simpl. rewrite app_nil_r. simpl in H. inversion H as [|? ? Hq Hcs]; subst.
    constructor; [exact (Q_element _ _ _ _ _ _ Hq)|].
    apply Forall_flat_map_twice.
    apply (Forall_mp _ _ _ IH). apply Forall_flat_map_1. exact Hcs.
  - rewrite removeEmptyNode_template. constructor.
Qed.

Lemma cleanElements_keeps cleanStyle (n : Node) :
  Forall Q (descendantsOf n) -> Forall Q (descendantsOf (cleanElements cleanStyle n)).
Proof.
  induction n as [d|d|h ln attrs cs IH|attrs c] using Node_forall_ind; intros H.
  - constructor.
  - constructor.
  - simpl. simpl in H. inversion H as [|? ? Hq Hcs]; subst.
    constructor; [exact (Q_element _ _ _ _ _ _ Hq)|].
    rewrite flat_map_concat_map, map_map, <- flat_map_concat_map.
    apply Forall_flat_map_2. apply (Forall_mp _ _ _ IH).
    apply Forall_flat_map_1. exact Hcs.
  - simpl. simpl in H. inversion H as [|? ? Hq _]; subst.
    constructor; [exact (Q_template _ _ _ Hq) | constructor].
Qed.

Lemma removeAllIn_keeps name (nodes : list Node) :
  Forall Q (flat_map descendantsOf nodes) ->
  Forall Q (flat_map descendantsOf (removeAllIn name nodes)).
Proof.
  intros H. apply Forall_flat_map_twice. apply Forall_flat_map_1 in H.
  eapply Forall_impl; [exact H|]. intros n. apply removeAll_keeps.
Qed.

Lemma removeEmptyElements_keeps (nodes : list Node) :
  Forall Q (flat_map descendantsOf nodes) ->
  Forall Q (flat_map descendantsOf (removeEmptyElements nodes)).
Proof.
  intros H. apply Forall_flat_map_twice. apply Forall_flat_map_1 in H.
  eapply Forall_impl; [exact H|]. intros n. apply removeEmptyNode_keeps.
Qed.

Lemma map_cleanElements_keeps cleanStyle (nodes : list Node) :
  Forall Q (flat_map descendantsOf nodes) ->
  Forall Q (flat_map descendantsOf (map (cleanElements cleanStyle) nodes)).
Proof.
  intros H. rewrite flat_map_concat_map, map_map, <- flat_map_concat_map.
  apply Forall_flat_map_2. apply Forall_flat_map_1 in H.
  eapply Forall_impl; [exact H|]. intros n. apply cleanElements_keeps.
Qed.

End Kept.

(** [querySelectorAll(name)] followed by [remove()] leaves no element of that
    name. *)
Lemma removeAll_gone name (n : Node) :
  Forall (fun e => nodeLocalName e <> Some name) (flat_map descendantsOf (removeAll name n)).
Proof.
  induction n as [d|d|h ln attrs cs IH|attrs c] using Node_forall_ind.
  - constructor.
  - constructor.
  - simpl removeAll. destruct (eqs ln name) eqn:E; [constructor|].
    simpl. rewrite app_nil_r. constructor.
    + simpl. apply eqs_false in E. congruence.
    + apply Forall_flat_map_twice. exact IH.
  - simpl removeAll. destruct (eqs _ name) eqn:E; [constructor|].
    simpl. constructor; [|constructor]. simpl. apply eqs_false in E. congruence.
Qed.

(** After [removeEmptyElements] no [template] element is left. *)
Lemma removeEmptyNode_no_template (n : Node) :
  Forall (fun e => isTemplate e = false) (flat_map descendantsOf (removeEmptyNode n)).
Proof.
  induction n as [d|d|h ln attrs cs IH|attrs c] using Node_forall_ind.
  - constructor.
  - constructor.
  - simpl removeEmptyNode. destruct (isEmptyElement _); [constructor|].
    simpl. rewrite app_nil_r. constructor; [reflexivity|].
    apply Forall_flat_map_twice. exact IH.
  - rewrite removeEmptyNode_template. constructor.
Qed.

(** After [cleanElements] no element has an attribute with a dangerous name. *)
Lemma cleanElements_attributes cleanStyle (n : Node) :
  Forall (fun e => Forall (fun a => dangerousName (fst a) = false) (nodeAttributes e))
         (descendantsOf (cleanElements cleanStyle n)).
Proof.
  induction n as [d|d|h ln attrs cs IH|attrs c] using Node_forall_ind.
  - constructor.
  - constructor.
  - simpl. constructor; [apply cleanAttributes_safe|].
    rewrite flat_map_concat_map, map_map, <- flat_map_concat_map.
    apply Forall_flat_map_2. exact IH.
  - simpl. constructor; [apply cleanAttributes_safe | constructor].
Qed.

(** Without [template] elements the serialisation shows the descendant
    elements and nothing else. *)
Lemma serialisedElements_descendants (n : Node) :
  Forall (fun e => isTemplate e = false) (descendantsOf n) ->
  serialisedElements n = descendantsOf n.
Proof.
  induction n as [d|d|h ln attrs cs IH|attrs c] using Node_forall_ind; intros H.
  - reflexivity.
  - reflexivity.
  - simpl. f_equal. simpl in H. inversion H as [|? ? _ Hcs]; subst.
    apply Forall_flat_map_1 in Hcs. clear H.
    induction IH as [|c cs Hc _ IHcs]; [reflexivity|].
    inversion Hcs; subst. simpl. rewrite Hc, IHcs by assumption. reflexivity.
  - simpl in H. inversion H as [|? ? Ht _]. discriminate.
Qed.

(** For every HTML string, the fragment [sanitizeDom (parseFragment html)]
    that EmailCard's [sanitizeHtml] serialises contains no [script] element,
    no [style] element and no [template] element, and none of its elements
    carries an attribute whose name starts with "on", or a [class] or [id]
    attribute; the result of [sanitizeHtml] is the serialisation of that
    fragment after the three [replace] calls. *)
Theorem sanitized_fragment_is_safe
    (parseFragment : jsstring -> list Node) (cleanStyle : jsstring -> jsstring)
    (anglesInAttributes : bool) (html : jsstring) :
  sanitizeHtml parseFragment cleanStyle anglesInAttributes html
  = stripEmptyDivs
      (innerHTML anglesInAttributes (sanitizeDom cleanStyle (parseFragment html))) /\
  forallb isSafeElement
          (flat_map serialisedElements (sanitizeDom cleanStyle (parseFragment html))) = true /\
  forallb (fun e => negb (isTemplate e))
          (flat_map serialisedElements (sanitizeDom cleanStyle (parseFragment html))) = true.
Proof.
  split; [reflexivity|].
  set (nodes := parseFragment html).
  assert (Hq1 : forall name h ln a c a' c',
             nodeLocalName (Element h ln a c) <> Some name ->
             nodeLocalName (Element h ln a' c') <> Some name) by (intros; assumption).
  assert (Hq2 : forall name a a' c,
             nodeLocalName (Template a c) <> Some name ->
             nodeLocalName (Template a' c) <> Some name) by (intros; assumption).
  assert (Hscript : Forall (fun e => nodeLocalName e <> Some (str "script"))
                      (flat_map descendantsOf (sanitizeDom cleanStyle nodes))).
  { unfold sanitizeDom.
    apply map_cleanElements_keeps; [apply Hq1 | apply Hq2 |].
    apply removeEmptyElements_keeps; [apply Hq1 |].
    apply removeAllIn_keeps; [apply Hq1 |].
    apply Forall_flat_map_twice, Forall_forall. intros n _. apply removeAll_gone. }
  assert (Hstyle : Forall (fun e => nodeLocalName e <> Some (str "style"))
                     (flat_map descendantsOf (sanitizeDom cleanStyle nodes))).
  { unfold sanitizeDom.
    apply map_cleanElements_keeps; [apply Hq1 | apply Hq2 |].
    apply removeEmptyElements_keeps; [apply Hq1 |].
    apply Forall_flat_map_twice, Forall_forall. intros n _. apply removeAll_gone. }
  assert (Htemplate : Forall (fun e => isTemplate e = false)
                        (flat_map descendantsOf (sanitizeDom cleanStyle nodes))).
  { unfold sanitizeDom.
    apply map_cleanElements_keeps; [reflexivity | discriminate |].
    apply Forall_flat_map_twice, Forall_forall. intros n _.
    apply removeEmptyNode_no_template. }
  assert (Hattrs : Forall (fun e => Forall (fun a => dangerousName (fst a) = false)
                                           (nodeAttributes e))
                     (flat_map descendantsOf (sanitizeDom cleanStyle nodes))).
  { unfold sanitizeDom. apply Forall_flat_map_2, Forall_forall. intros n Hn.
    apply list_elem_of_fmap in Hn as (n0 & -> & _). apply cleanElements_attributes. }
  assert (Heq : flat_map serialisedElements (sanitizeDom cleanStyle nodes)
                = flat_map descendantsOf (sanitizeDom cleanStyle nodes)).
  { revert Htemplate. generalize (sanitizeDom cleanStyle nodes). intros l Hl.
    apply Forall_flat_map_1 in Hl.
    induction Hl as [|n l Hn _ IH]; [reflexivity|].
    simpl. rewrite (serialisedElements_descendants _ Hn), IH. reflexivity. }
  rewrite Heq. split.
  - apply forallb_forall. intros e He. apply list_elem_of_In in He.
    rewrite Forall_forall in Hscript, Hstyle, Hattrs.
    unfold isSafeElement. rewrite !andb_true_iff, !negb_true_iff, !bool_decide_eq_false.
    split; [split; [apply Hscript, He | apply Hstyle, He]|].
    apply forallb_forall. intros a Ha. apply negb_true_iff.
    specialize (Hattrs e He). rewrite Forall_forall in Hattrs.
    apply Hattrs, list_elem_of_In, Ha.
  - apply forallb_forall. intros e He. apply list_elem_of_In in He.
    rewrite Forall_forall in Htemplate. rewrite (Htemplate e He). reflexivity.
Qed.

(** C9 at the failing input: the HTML text [commentHtml] is one comment (the
    fragment [commentFragment], which has no element at all and serialises to
    that text again); [sanitizeHtml] returns
    <!--x--><script>alert(1)</script><!---->, because the last [replace]
    deletes the two empty divs inside the comment and with them the end of the
    comment text; that result is the serialisation of a fragment with a
    [script] element. *)
Theorem C9_sanitizeHtml_exposes_script (cleanStyle : jsstring -> jsstring)
    (anglesInAttributes : bool) :
  innerHTML anglesInAttributes commentFragment = commentHtml /\
  forallb isSafeElement (flat_map serialisedElements commentFragment) = true /\
  sanitizeHtml (fun _ => commentFragment) cleanStyle anglesInAttributes commentHtml
  = str "<!--x--><script>alert(1)</script><!---->" /\
  innerHTML anglesInAttributes scriptFragment
  = str "<!--x--><script>alert(1)</script><!---->" /\
  forallb isSafeElement (flat_map serialisedElements scriptFragment) = false.
Proof. destruct anglesInAttributes; vm_compute; repeat split. Qed.

End Sanitizer.

(** ** The dashboard's sync statistics *)

Section DashboardFacts.
Import Dashboard.
Local Open Scope Z_scope.


End DashboardFacts.

(** ** The batches of the Batch Classifier *)

Section Batches.
Import Pipeline.
Context {A : Type}.

Lemma chunks_concat (fuel size : nat) (l : list A) :
  0 < size -> length l <= fuel -> concat (chunks fuel size l) = l.
Proof.
  intros Hsize. revert l. induction fuel as [|fuel IH]; intros l Hl.
  - destruct l; [reflexivity | simpl in Hl; lia].
  - destruct l as [|x l]; [reflexivity|].
    change (chunks (S fuel) size (x :: l))
      with (take size (x :: l) :: chunks fuel size (drop size (x :: l))).
    simpl concat. rewrite IH.
    + apply take_drop.
    + rewrite length_drop. simpl in *. lia.
Qed.

Lemma chunks_sizes (fuel size : nat) (l : list A) :
  0 < size -> Forall (fun b => 0 < length b <= size) (chunks fuel size l).
Proof.
  intros Hsize. revert l. induction fuel as [|fuel IH]; intros l; [constructor|].
  destruct l as [|x l]; [constructor|].
  change (chunks (S fuel) size (x :: l))
    with (take size (x :: l) :: chunks fuel size (drop size (x :: l))).
  constructor; [|apply IH]. rewrite length_take. simpl. lia.
Qed.

(** Every batch that is followed by another one is full. *)
Lemma chunks_full (fuel size : nat) (l : list A) (i : nat) (b : list A) :
  chunks fuel size l !! i = Some b ->
  S i < length (chunks fuel size l) ->
  length b = size.
Proof.
  revert l i. induction fuel as [|fuel IH]; intros l i Hb Hi; [discriminate|].
  destruct l as [|x l]; [discriminate|].
  change (chunks (S fuel) size (x :: l))
    with (take size (x :: l) :: chunks fuel size (drop size (x :: l))) in *.
  destruct i as [|i].
  - simpl in Hb. injection Hb as <-. simpl length in Hi.
    rewrite length_take.
    destruct (chunks fuel size (drop size (x :: l))) as [|c cs] eqn:E; [simpl in Hi; lia|].
    assert (Hd : drop size (x :: l) <> []).
    { intros Hnil. rewrite Hnil in E. destruct fuel; discriminate. }
    assert (size < length (x :: l)); [|lia].
    destruct (Nat.lt_ge_cases size (length (x :: l))) as [|Hge]; [assumption|].
    exfalso. apply Hd. apply drop_ge. exact Hge.
  - simpl in Hb. simpl length in Hi. apply (IH _ i Hb). lia.
Qed.

(** The sizes of the batches depend on the number of messages only. *)
Lemma chunks_lengths {B : Type} (fuel size : nat) (l : list A) (l' : list B) :
  length l = length l' ->
  map length (chunks fuel size l) = map length (chunks fuel size l').
Proof.
  revert l l'. induction fuel as [|fuel IH]; intros l l' Hlen; [reflexivity|].
  destruct l as [|x l], l' as [|y l']; try discriminate; [reflexivity|].
  change (chunks (S fuel) size (x :: l))
    with (take size (x :: l) :: chunks fuel size (drop size (x :: l))).
  change (chunks (S fuel) size (y :: l'))
    with (take size (y :: l') :: chunks fuel size (drop size (y :: l'))).
  simpl map. f_equal.
  - rewrite !length_take, Hlen. reflexivity.
  - apply IH. rewrite !length_drop, Hlen. reflexivity.
Qed.

(** C5: the Batch Classifier cuts its input into contiguous batches (put
    together again they are the input) of at least one and at most 25
    messages; every batch but the last has exactly 25, and 30 messages give
    two batches of 25 and 5. *)
Theorem C5_batches_of_25 (input : list A) :
  concat (partitionBatches input) = input /\
  Forall (fun b => 0 < length b <= 25) (partitionBatches input) /\
  (forall i b, partitionBatches input !! i = Some b ->
               S i < length (partitionBatches input) -> length b = 25) /\
  (length input = 30 -> map length (partitionBatches input) = [25; 5]).
Proof.
  unfold partitionBatches, batchSize. split; [|split; [|split]].
  - apply chunks_concat; lia.
  - apply chunks_sizes. lia.
  - intros i b. apply chunks_full.
  - intros H30. rewrite (chunks_lengths _ _ input (replicate 30 tt)), H30; [reflexivity|].
    rewrite length_replicate. exact H30.
Qed.

End Batches.

(** ** The Sync Job *)

Section SyncJob.
Import Pipeline.

Variable c : Collaborators.

Lemma classifyBatch_length (batch : list (EmailId * string)) :
  length (classifyBatch c batch) = length batch.
Proof. unfold classifyBatch. destruct (classify c batch); apply length_map. Qed.

(** Every message handed to the Batch Classifier gets exactly one outcome. *)
Lemma batchClassifier_length (input : list (EmailId * string)) :
  length (batchClassifier c input) = length input.
Proof.
  unfold batchClassifier.
  rewrite <- (chunks_concat (length input) batchSize input) at 2
    by (unfold batchSize; lia).
  fold (partitionBatches input).
  induction (partitionBatches input) as [|b bs IH]; [reflexivity|].
  simpl. rewrite !length_app, classifyBatch_length, IH. reflexivity.
Qed.

(** Every outcome is counted once, as processed or as failed. *)
Lemma applyOutcome_counts (outcomes : list Outcome) (st : Store) (done bad : nat) :
  let '(_, (done', bad')) := foldl (applyOutcome c) (st, (done, bad)) outcomes in
  done' + bad' = done + bad + length outcomes.
Proof.
  revert st done bad. induction outcomes as [|o outcomes IH]; intros st done bad.
  - simpl. lia.
  - simpl foldl. destruct o as [id r|id]; simpl applyOutcome.
    + destruct (write c st id r) as [st'|].
      * specialize (IH st' (S done) bad).
        destruct (foldl _ _ _) as [? [? ?]]. simpl length. lia.
      * specialize (IH st done (S bad)).
        destruct (foldl _ _ _) as [? [? ?]]. simpl length. lia.
    + specialize (IH st done (S bad)).
      destruct (foldl _ _ _) as [? [? ?]]. simpl length. lia.
Qed.

(** A write that succeeds marks the stored email processed. *)
Lemma write_emails (st st' : Store) (id : EmailId) (r : ClassificationResult) :
  write c st id r = Some st' ->
  exists e, emails st !! id = Some e /\ storageWrites c id = true /\
    emails st' = <[id := mkEmail (subject e) (sender e) (received e) (snippet e) (body e)
                                 (rawPayload e) true (hidden e)]> (emails st).
Proof.
  unfold write. destruct (emails st !! id) as [e|]; [|discriminate].
  destruct (storageWrites c id); [|discriminate].
  intros [= <-]. exists e. repeat split.
Qed.

(** For a stored email the write succeeds exactly when the storage does. *)
Lemma write_stored (st : Store) (id : EmailId) (r : ClassificationResult) :
  is_Some (emails st !! id) ->
  is_Some (write c st id r) <-> storageWrites c id = true.
Proof.
  intros [e He]. unfold write. rewrite He. destruct (storageWrites c id); split;
    try discriminate; eauto. intros [? ?]. discriminate.
Qed.

(** The outcome of a message of a batch is for that message, and is counted
    as failed exactly when the message fails. *)
Lemma classifyBatch_outcomes (batch : list (EmailId * string)) :
  map outcomeId (classifyBatch c batch) = map fst batch /\
  map (countedFailed c) (classifyBatch c batch) = map (fun m => messageFails c batch (fst m)) batch.
Proof.
  unfold classifyBatch, messageFails.
  destruct (classify c batch) as [response|].
  - rewrite !map_map. split; apply map_ext; intros [id body]; unfold outcomeOf, validate; simpl.
    + destruct (List.find _ response) as [r|]; [|reflexivity].
      destruct (parseCategory _); [|reflexivity]. destruct (fieldsParse _ _ _); reflexivity.
    + destruct (List.find _ response) as [r|]; [|reflexivity].
      destruct (parseCategory _); [|reflexivity]. destruct (fieldsParse _ _ _); reflexivity.
  - rewrite !map_map. split; apply map_ext; intros [id body]; reflexivity.
Qed.

Lemma filter_length_map {X} (f : X -> bool) (b : bool) (l : list X) :
  length (filter (fun x => f x = b) l) = length (filter (fun y => y = b) (map f l)).
Proof.
  induction l as [|x l IH]; [reflexivity|]. simpl map.
  rewrite !filter_cons. destruct (decide (f x = b)); simpl; rewrite IH; reflexivity.
Qed.

Lemma batchClassifier_outcomes (batches : list (list (EmailId * string))) :
  map outcomeId (flat_map (classifyBatch c) batches) = map fst (concat batches) /\
  length (filter (fun o => countedFailed c o = true) (flat_map (classifyBatch c) batches))
  = length (failedMessages c batches) /\
  length (filter (fun o => countedFailed c o = false) (flat_map (classifyBatch c) batches))
  = length (classifiedMessages c batches).
Proof.
  induction batches as [|b bs (IH1 & IH2 & IH3)]; [repeat split|].
  destruct (classifyBatch_outcomes b) as [H1 H2].
  unfold failedMessages, classifiedMessages in *. simpl.
  rewrite !map_app, !filter_app, !length_app, IH1, IH2, IH3, H1.
  rewrite !(filter_length_map (countedFailed c)), H2,
    <- !(filter_length_map (fun m => messageFails c b (fst m))).
  repeat split.
Qed.

(** For outcomes of stored emails the two counts are the numbers of the
    outcomes that are written and of those that fail. *)
Lemma applyOutcome_counted (outcomes : list Outcome) (st : Store) (done bad : nat) :
  Forall (fun o => is_Some (emails st !! outcomeId o)) outcomes ->
  snd (foldl (applyOutcome c) (st, (done, bad)) outcomes)
  = (done + length (filter (fun o => countedFailed c o = false) outcomes),
     bad + length (filter (fun o => countedFailed c o = true) outcomes)).
Proof.
  revert st done bad. induction outcomes as [|o outcomes IH]; intros st done bad Hst.
  - simpl. f_equal; lia.
  - inversion Hst as [|? ? Ho Hrest]; subst. simpl foldl. rewrite !filter_cons.
    destruct o as [id r|id]; simpl applyOutcome; simpl countedFailed.
    + simpl in Ho. pose proof (write_stored st id r Ho) as Hw.
      destruct (write c st id r) as [st'|] eqn:E.
      * assert (Hs : storageWrites c id = true) by (apply Hw; eauto).
        rewrite Hs. simpl negb. rewrite decide_True by reflexivity.
        rewrite decide_False by discriminate. rewrite IH.
        -- simpl length. f_equal; lia.
        -- destruct (write_emails _ _ _ _ E) as (e & He & _ & Hem).
           eapply Forall_impl; [exact Hrest|]. intros o Hso. cbv beta in Hso. rewrite Hem.
           destruct (decide (outcomeId o = id)) as [->|Hne].
           ++ rewrite lookup_insert_eq. eauto.
           ++ rewrite lookup_insert_ne by congruence. exact Hso.
      * assert (Hs : storageWrites c id = false).
        { destruct (storageWrites c id); [|reflexivity].
          destruct (proj2 Hw eq_refl); discriminate. }
        rewrite Hs. simpl negb. rewrite decide_False by discriminate.
        rewrite decide_True by reflexivity. rewrite IH by exact Hrest.
        simpl length. f_equal; lia.
    + rewrite decide_False by discriminate. rewrite decide_True by reflexivity.
      rewrite IH by exact Hrest. simpl length. f_equal; lia.
Qed.

(** The unprocessed emails are stored, with processed = false. *)
Lemma unprocessedEmails_stored (st : Store) :
  Forall (fun m => exists e, emails st !! fst m = Some e /\ processed e = false)
         (unprocessedEmails st).
Proof.
  apply Forall_forall. intros m Hm. unfold unprocessedEmails in Hm.
  apply list_elem_of_omap in Hm as ([id e] & Hin & Hf). simpl in Hf.
  destruct (processed e) eqn:Ep; [discriminate|]. injection Hf as <-.
  apply elem_of_map_to_list in Hin. exists e. split; assumption.
Qed.


(** No email is among the unprocessed ones twice. *)
Lemma unprocessedEmails_ids (st : Store) : NoDup (map fst (unprocessedEmails st)).
Proof.
  unfold unprocessedEmails.
  pose proof (NoDup_fst_map_to_list (emails st)) as Hnd.
  induction (map_to_list (emails st)) as [|[id e] l IH]; [constructor|].
  simpl in Hnd. apply NoDup_cons in Hnd as [Hid Hl]. simpl omap.
  destruct (processed e); simpl; [apply IH, Hl|].
  apply NoDup_cons. split; [|apply IH, Hl].
  intros Hin. apply Hid. apply list_elem_of_fmap in Hin as ([id' b] & -> & Hin).
  apply list_elem_of_omap in Hin as ([id'' e'] & Hin & Hf). simpl in Hf.
  destruct (processed e'); [discriminate|]. injection Hf as H1 H2. subst id''.
  apply list_elem_of_fmap. exists (id', e'). split; [reflexivity | exact Hin].
Qed.

(** A successful write takes one email out of the unprocessed ones. *)
Lemma write_unprocessed (st st' : Store) (id : EmailId) (r : ClassificationResult) (e : Email) :
  emails st !! id = Some e -> processed e = false ->
  write c st id r = Some st' ->
  length (unprocessedEmails st) = S (length (unprocessedEmails st')).
Proof.
  intros He Hp Hw. destruct (write_emails _ _ _ _ Hw) as (e0 & He0 & _ & Hem).
  assert (e0 = e) by congruence. subst e0.
  unfold unprocessedEmails. rewrite Hem, <- insert_delete_eq.
  rewrite <- (map_to_list_delete (emails st) id e He).
  rewrite map_to_list_insert by apply lookup_delete_eq.
  simpl. rewrite Hp. reflexivity.
Qed.

(** Every write takes one email out of the unprocessed ones; a failure takes
    none. *)
Lemma applyOutcome_unprocessed (outcomes : list Outcome) (st : Store) (done bad : nat) :
  NoDup (map outcomeId outcomes) ->
  Forall (fun o => exists e, emails st !! outcomeId o = Some e /\ processed e = false)
         outcomes ->
  length (unprocessedEmails (fst (foldl (applyOutcome c) (st, (done, bad)) outcomes)))
  + fst (snd (foldl (applyOutcome c) (st, (done, bad)) outcomes))
  = length (unprocessedEmails st) + done.
Proof.
  revert st done bad. induction outcomes as [|o outcomes IH]; intros st done bad Hnd Hst.
  - reflexivity.
  - simpl in Hnd. apply NoDup_cons in Hnd as [Ho Hnd].
    inversion Hst as [|? ? (e & He & Hp) Hrest]; subst. simpl foldl.
    destruct o as [id r|id]; simpl applyOutcome; simpl in He, Ho.
    + destruct (write c st id r) as [st'|] eqn:Hw.
      * rewrite IH; [rewrite (write_unprocessed _ _ _ _ _ He Hp Hw); lia | exact Hnd |].
        destruct (write_emails _ _ _ _ Hw) as (e0 & _ & _ & Hem).
        apply Forall_forall. intros o Hin.
        rewrite Forall_forall in Hrest. destruct (Hrest o Hin) as (e' & He' & Hp').
        exists e'. split; [|exact Hp']. rewrite Hem, lookup_insert_ne; [exact He'|].
        intros ->. apply Ho. apply list_elem_of_fmap. exists o. split; [reflexivity | exact Hin].
      * apply IH; assumption.
    + apply IH; assumption.
Qed.


(** The snapshot of a run whose fetch succeeds: the counts by message, and
    the failed count against the store that the run leaves. *)
Lemma runSync_completed (st : Store) (messages : list Message) :
  fetchMessages c (dom (emails st)) = inr messages ->
  snd (runSync c st)
  = mkSnapshot COMPLETED (size (emails (fst (runSync c st))))
      (length (classifiedMessages c
                 (partitionBatches (unprocessedEmails (foldl storeNew st messages)))))
      (length (unprocessedEmails (fst (runSync c st))))
      (size (emails (foldl storeNew st messages)) - size (emails st))
      (length (failedMessages c
                 (partitionBatches (unprocessedEmails (foldl storeNew st messages)))))
      None /\
  length (failedMessages c (partitionBatches (unprocessedEmails (foldl storeNew st messages))))
  = length (unprocessedEmails (fst (runSync c st))) /\
  length (classifiedMessages c
            (partitionBatches (unprocessedEmails (foldl storeNew st messages))))
  + length (failedMessages c
              (partitionBatches (unprocessedEmails (foldl storeNew st messages))))
  = length (unprocessedEmails (foldl storeNew st messages)).
Proof.
  intros Hfetch. unfold runSync. rewrite Hfetch.
  set (st1 := foldl storeNew st messages).
  set (handed := unprocessedEmails st1).
  unfold batchClassifier.
  destruct (batchClassifier_outcomes (partitionBatches handed)) as (Hids & Hbad & Hdone).
  assert (Hconcat : concat (partitionBatches handed) = handed).
  { apply chunks_concat; unfold batchSize; lia. }
  rewrite Hconcat in Hids.
  set (outcomes := flat_map (classifyBatch c) (partitionBatches handed)) in *.
  assert (Hstored : Forall (fun o => exists e, emails st1 !! outcomeId o = Some e
                                               /\ processed e = false) outcomes).
  { apply (proj1 (List.Forall_map outcomeId
                      (fun id => exists e, emails st1 !! id = Some e /\ processed e = false)
                      outcomes)).
    rewrite Hids. apply List.Forall_map. apply unprocessedEmails_stored. }
  assert (Hnd : NoDup (map outcomeId outcomes)).
  { rewrite Hids. apply unprocessedEmails_ids. }
  assert (Hcount : snd (foldl (applyOutcome c) (st1, (0, 0)) outcomes)
                   = (0 + length (filter (fun o => countedFailed c o = false) outcomes),
                      0 + length (filter (fun o => countedFailed c o = true) outcomes))).
  { apply applyOutcome_counted.
    eapply Forall_impl; [exact Hstored|]. intros o (e & He & _). eauto. }
  pose proof (applyOutcome_unprocessed outcomes st1 0 0 Hnd Hstored) as Hun.
  pose proof (applyOutcome_counts outcomes st1 0 0) as Hall.
  destruct (foldl (applyOutcome c) (st1, (0, 0)) outcomes) as [st2 [done bad]].
  simpl in Hcount, Hun.
  assert (Hlen : length outcomes = length handed).
  { rewrite <- (length_map outcomeId outcomes), Hids, length_map. reflexivity. }
  injection Hcount as Hd Hb. simpl in Hd, Hb. rewrite Hdone in Hd. rewrite Hbad in Hb.
  simpl fst. simpl snd. subst done bad. rewrite Hlen in Hall.
  assert (Hh : length handed = length (unprocessedEmails st1)) by reflexivity.
  split; [reflexivity|]. split; lia.
Qed.


(** C2: a run of the Sync Job ends in FAILED exactly when the fetch stage
    fails; whenever the fetch succeeds it ends in COMPLETED, whatever the
    classification of single messages or batches does.  The failed count of
    its snapshot is the number of the messages handed to the classifier that
    fail (their batch fails, the response has no record for them, their
    record fails validation, or the write fails), the processed count is the
    number of the others, and the two add up to the number of messages handed
    over.  In the scenario of the specification (no known emails, 30 new
    messages, the adapter fails on the second batch, the batch of five) the
    job is COMPLETED with total = 30, processed = 25, unprocessed = 5,
    new = 30 and failed = 5. *)
Theorem C2_failed_only_by_fetch (st : Store) :
  (state (snd (runSync c st)) = FAILED <->
   exists err, fetchMessages c (dom (emails st)) = inl err) /\
  (forall messages, fetchMessages c (dom (emails st)) = inr messages ->
     state (snd (runSync c st)) = COMPLETED /\
     failed (snd (runSync c st))
     = length (failedMessages c
                 (partitionBatches (unprocessedEmails (foldl storeNew st messages)))) /\
     processedCount (snd (runSync c st))
     = length (classifiedMessages c
                 (partitionBatches (unprocessedEmails (foldl storeNew st messages)))) /\
     processedCount (snd (runSync c st)) + failed (snd (runSync c st))
     = length (unprocessedEmails (foldl storeNew st messages))) /\
  snd (runSync scenario emptyStore) = mkSnapshot COMPLETED 30 25 5 30 5 None.
Proof.
  split; [|split].
  - unfold runSync. destruct (fetchMessages c (dom (emails st))) as [err|messages].
    + split; [intros _; exists err; reflexivity | reflexivity].
    + destruct (foldl (applyOutcome c) _ _) as [st2 [done bad]]. simpl.
      split; [discriminate | intros [err Herr]; discriminate].
  - intros messages Hfetch.
    destruct (runSync_completed st messages Hfetch) as (-> & _ & Hsum).
    simpl. repeat split. exact Hsum.
  - vm_compute. reflexivity.
Qed.

End SyncJob.


(** ** Processed emails and their results *)

Section Processed.
Import Pipeline.

(** The invariant of the store: an email is processed exactly when it has a
    ClassificationResult. *)
Local Abbreviation consistent st := (forall id, isProcessed st id <-> hasResult st id).

Lemma emptyStore_consistent : consistent emptyStore.
Proof.
  intros id. unfold isProcessed, hasResult. simpl. rewrite !lookup_empty. split.
  - intros (e & He & _). discriminate.
  - intros [r Hr]. discriminate.
Qed.

Lemma storeNew_consistent (st : Store) (m : Message) :
  consistent st -> consistent (storeNew st m).
Proof.
  intros Hst id. unfold storeNew.
  destruct (emails st !! msgId m) as [e|] eqn:E; [apply Hst|].
  unfold isProcessed, hasResult. simpl. destruct (decide (id = msgId m)) as [->|Hne].
  - rewrite lookup_insert_eq. split.
    + intros (e & He & Hp). injection He as <-. discriminate.
    + intros Hr. apply Hst in Hr as (e & He & _). congruence.
  - rewrite lookup_insert_ne by congruence. apply Hst.
Qed.

Lemma write_consistent (c : Collaborators) (st st' : Store) (id : EmailId)
    (r : ClassificationResult) :
  consistent st -> write c st id r = Some st' -> consistent st'.
Proof.
  intros Hst Hw id'. unfold write in Hw.
  destruct (emails st !! id) as [e|]; [|discriminate].
  destruct (storageWrites c id); [|discriminate]. injection Hw as <-.
  unfold isProcessed, hasResult. simpl. destruct (decide (id' = id)) as [->|Hne].
  - rewrite !lookup_insert_eq. split; [intros _; eexists; reflexivity|].
    intros _. eexists. split; reflexivity.
  - rewrite !lookup_insert_ne by congruence. apply Hst.
Qed.

Lemma applyOutcome_consistent (c : Collaborators) (outcomes : list Outcome)
    (st : Store) (counts : nat * nat) :
  consistent st -> consistent (fst (foldl (applyOutcome c) (st, counts) outcomes)).
Proof.
  revert st counts. induction outcomes as [|o outcomes IH]; intros st [done bad] Hst.
  - exact Hst.
  - simpl foldl. destruct o as [id r|id]; simpl applyOutcome.
    + destruct (write c st id r) as [st'|] eqn:Hw.
      * apply IH. exact (write_consistent c st st' id r Hst Hw).
      * apply IH, Hst.
    + apply IH, Hst.
Qed.

Lemma runSync_consistent (c : Collaborators) (st : Store) :
  consistent st -> consistent (fst (runSync c st)).
Proof.
  intros Hst. unfold runSync.
  destruct (fetchMessages c (dom (emails st))) as [err|messages]; [exact Hst|].
  assert (H1 : consistent (foldl storeNew st messages)).
  { clear c. revert st Hst. induction messages as [|m messages IH]; intros st Hst.
    - exact Hst.
    - simpl. apply IH, storeNew_consistent, Hst. }
  pose proof (applyOutcome_consistent c
                (batchClassifier c (unprocessedEmails (foldl storeNew st messages)))
                (foldl storeNew st messages) (0, 0) H1) as H2.
  destruct (foldl (applyOutcome c) _ _) as [st2 [done bad]]. exact H2.
Qed.

(** C3: in every store that runs of the Sync Job produce, whether a job
    completed or failed, an email's processed flag is true if and only if a
    ClassificationResult for it exists. *)
Theorem C3_processed_iff_result (st : Store) (E : EmailId) :
  reachable st -> (isProcessed st E <-> hasResult st E).
Proof.
  intros Hreach. revert E. induction Hreach as [|c st _ IH].
  - apply emptyStore_consistent.
  - apply runSync_consistent, IH.
Qed.

End Processed.

(** C3 after the run of the scenario, for the email with id 7. *)
Lemma C3_processed_iff_result_witness :
  Pipeline.isProcessed (fst (Pipeline.runSync Pipeline.scenario Pipeline.emptyStore)) 7
  <-> Pipeline.hasResult (fst (Pipeline.runSync Pipeline.scenario Pipeline.emptyStore)) 7.
Proof.
  apply (C3_processed_iff_result
           (fst (Pipeline.runSync Pipeline.scenario Pipeline.emptyStore)) 7).
  apply Pipeline.reachable_run, Pipeline.reachable_empty.
Defined.

(** ** The status poll of the Job Manager *)

Section JobManager.
Import Pipeline.

(** What a snapshot says of the store that its run left. *)
Local Abbreviation describes snap st :=
  (total snap = size (emails st) /\
   unprocessed snap = length (unprocessedEmails st) /\
   (state snap = COMPLETED /\ failed snap = length (unprocessedEmails st)
    \/ state snap = FAILED /\ failed snap = 0 /\ is_Some (lastError snap))).







End JobManager.


(** ** Eastern daylight time *)

Section EasternTimeFacts.
Import EasternTime.
Local Open Scope Z_scope.

(** The years all of whose days a Date can hold. *)
Local Abbreviation representable year := (-271821 < year < 275760).

Lemma MakeFullYear_representable year :
  representable year -> representable (MakeFullYear year).
Proof. unfold MakeFullYear. destruct (_ && _) eqn:E; lia. Qed.

Lemma InLeapYear_bound y : 0 <= InLeapYear y <= 1.
Proof. unfold InLeapYear. destruct (_ =? _); lia. Qed.

Lemma monthStart_bound leap m : 0 <= leap <= 1 -> 0 <= m <= 11 -> 0 <= monthStart leap m <= 335.
Proof.
  intros Hl Hm.
  assert (m = 0 \/ m = 1 \/ m = 2 \/ m = 3 \/ m = 4 \/ m = 5 \/ m = 6 \/ m = 7 \/ m = 8
          \/ m = 9 \/ m = 10 \/ m = 11) as H by lia.
  repeat (destruct H as [-> | H]); try subst m; simpl; lia.
Qed.

Lemma daysInMonth_bound leap m : 0 <= leap <= 1 -> 0 <= m <= 11 -> 28 <= daysInMonth leap m <= 31.
Proof.
  intros Hl Hm. unfold daysInMonth.
  assert (m = 0 \/ m = 1 \/ m = 2 \/ m = 3 \/ m = 4 \/ m = 5 \/ m = 6 \/ m = 7 \/ m = 8
          \/ m = 9 \/ m = 10 \/ m = 11) as H by lia.
  repeat (destruct H as [-> | H]); try subst m; simpl; lia.
Qed.

Lemma month_in_year m : 0 <= m <= 11 -> m / 12 = 0 /\ m mod 12 = m.
Proof. intros H. split; [apply Z.div_small | apply Z.mod_small]; lia. Qed.

Lemma MakeDay_valid year month day :
  representable year -> 0 <= month <= 11 -> 1 <= day <= 31 ->
  validDay (MakeDay year month day) = true.
Proof.
  intros Hy Hm Hd. unfold validDay, MakeDay. cbv zeta.
  destruct (month_in_year month Hm) as [-> ->]. rewrite Z.add_0_r.
  pose proof (monthStart_bound (InLeapYear year) month (InLeapYear_bound year) Hm) as Hs.
  unfold DayFromYear. apply Z.ltb_lt.
  generalize dependent (monthStart (InLeapYear year) month). intros s Hs.
  Z.div_mod_to_equations. lia.
Qed.

(** The week day goes on by one from a day of a month to the next. *)
Lemma WeekDay_MakeDay year month day :
  WeekDay (MakeDay year month day) = (WeekDay (MakeDay year month 1) + (day - 1)) mod 7.
Proof.
  unfold WeekDay, MakeDay. cbv zeta. rewrite Z.add_mod_idemp_l by lia. f_equal. lia.
Qed.

Lemma getNthSunday_for_loopFrom year month n :
  representable year -> 0 <= month <= 11 ->
  forall fuel day count, 1 <= day ->
  getNthSunday_for fuel year month n day count
  = loopFrom fuel (WeekDay (MakeDay (MakeFullYear year) month 1))
             (daysInMonth (InLeapYear (MakeFullYear year)) month) n day count.
Proof.
  intros Hy Hm. apply MakeFullYear_representable in Hy.
  induction fuel as [|fuel IH]; intros day count Hd; [reflexivity|].
  simpl. destruct (day <=? 31) eqn:E31; [|reflexivity]. simpl.
  apply Z.leb_le in E31.
  unfold Date_getMonth, Date_getDay. cbv zeta.
  rewrite (MakeDay_valid _ _ _ Hy Hm (conj Hd E31)).
  destruct (month_in_year month Hm) as [-> ->]. rewrite Z.add_0_r.
  destruct (day <=? daysInMonth _ month) eqn:Elen.
  - rewrite bool_decide_eq_true_2 by reflexivity. simpl.
    rewrite WeekDay_MakeDay.
    destruct (_ mod 7 =? 0) eqn:Ew.
    + apply Z.eqb_eq in Ew. rewrite bool_decide_eq_true_2 by (rewrite Ew; reflexivity).
      rewrite IH by lia. reflexivity.
    + apply Z.eqb_neq in Ew. rewrite bool_decide_eq_false_2 by congruence.
      apply IH. lia.
  - rewrite bool_decide_eq_false_2; [reflexivity|].
    intros [= H]. assert ((month + 1) mod 12 <> month); [|congruence].
    clear -Hm. Z.div_mod_to_equations. lia.
Qed.

Lemma sundaysUpTo_sundaysFrom year month day :
  sundaysUpTo year month day
  = sundaysFrom (WeekDay (MakeDay (MakeFullYear year) month 1)) day.
Proof.
  unfold sundaysUpTo, sundaysFrom. f_equal. apply list_filter_iff.
  intros k. rewrite WeekDay_MakeDay. reflexivity.
Qed.

Lemma WeekDay_range t : 0 <= WeekDay t < 7.
Proof. unfold WeekDay. apply Z.mod_pos_bound. lia. Qed.


(** Every week day of the first of the month, every length of a month and
    every n from 1 to 4: the loop stops at a Sunday of the n-th week, the n-th
    Sunday counted from the first of the month. *)
Lemma loopFrom_table :
  forallb (fun first => forallb (fun len => forallb (fun n =>
    let d := loopFrom 32 first len n 1 0 in
    (7 * n - 6 <=? d) && (d <=? 7 * n) && ((first + (d - 1)) mod 7 =? 0)
    && (sundaysFrom first d =? Z.to_nat n)%nat)
    (seqZ 1 4)) (seqZ 28 4)) (seqZ 0 7) = true.
Proof. vm_compute. reflexivity. Qed.

(** The same for the two tests of [_isEasternDST], on every day of March and
    of November. *)
Lemma isEasternDST_table :
  forallb (fun first => forallb (fun day =>
    bool_decide ((day >=? loopFrom 32 first 31 2 1 0) = (2 <=? sundaysFrom first day)%nat)
    && bool_decide ((day <? loopFrom 32 first 30 1 1 0) = (sundaysFrom first day =? 0)%nat))
    (seqZ 1 31)) (seqZ 0 7) = true.
Proof. vm_compute. reflexivity. Qed.

Lemma forallb_seqZ (f : Z -> bool) (m len x : Z) :
  forallb f (seqZ m len) = true -> m <= x < m + len -> f x = true.
Proof.
  intros H Hx. rewrite forallb_forall in H. apply H, list_elem_of_In, elem_of_seqZ. lia.
Qed.

(** [_getNthSunday(year, month, n)] for a month of the year and n from 1 to 4
    is the n-th Sunday of that month: a day of the n-th week (7n-6 to 7n)
    that is a Sunday, with n Sundays from the first of the month up to it.
    The year is read as [new Date] reads it (0 to 99 stand for 1900 to
    1999). *)
Theorem getNthSunday_is_nth_sunday (year month n : Z) :
  -271821 < year < 275760 -> 0 <= month <= 11 -> 1 <= n <= 4 ->
  7 * n - 6 <= _getNthSunday year month n <= 7 * n /\
  WeekDay (MakeDay (MakeFullYear year) month (_getNthSunday year month n)) = 0 /\
  sundaysUpTo year month (_getNthSunday year month n) = Z.to_nat n.
Proof.
  intros Hy Hm Hn. unfold _getNthSunday.
  rewrite (getNthSunday_for_loopFrom year month n Hy Hm) by lia.
  rewrite sundaysUpTo_sundaysFrom, (WeekDay_MakeDay _ _ (loopFrom _ _ _ _ _ _)).
  pose proof (WeekDay_range (MakeDay (MakeFullYear year) month 1)) as Hw.
  pose proof (daysInMonth_bound (InLeapYear (MakeFullYear year)) month
                (InLeapYear_bound _) Hm) as Hl.
  pose proof (forallb_seqZ _ _ _ (WeekDay (MakeDay (MakeFullYear year) month 1))
                loopFrom_table ltac:(lia)) as H.
  cbv beta in H.
  pose proof (forallb_seqZ _ _ _ (daysInMonth (InLeapYear (MakeFullYear year)) month)
                H ltac:(lia)) as H'.
  cbv beta in H'.
  pose proof (forallb_seqZ _ _ _ n H' ltac:(lia)) as H''.
  cbv beta zeta in H''.
  rewrite !andb_true_iff in H''. destruct H'' as [[[H1 H2] H3] H4].
  apply Z.leb_le in H1, H2. apply Z.eqb_eq in H3. apply Nat.eqb_eq in H4.
  exact (conj (conj H1 H2) (conj H3 H4)).
Qed.

Lemma getNthSunday_is_nth_sunday_witness :
  7 * 2 - 6 <= _getNthSunday 2026 2 2 <= 7 * 2 /\
  WeekDay (MakeDay (MakeFullYear 2026) 2 (_getNthSunday 2026 2 2)) = 0 /\
  sundaysUpTo 2026 2 (_getNthSunday 2026 2 2) = Z.to_nat 2.
Proof. apply (getNthSunday_is_nth_sunday 2026 2 2); lia. Defined.

(** [_isEasternDST(year, month, day)] is true from the second Sunday of March
    (the day on which the number of Sundays of March reaches two) to the day
    before the first Sunday of November (as long as November has had no
    Sunday), and in the months between; whole days, the switch at two
    o'clock is not looked at. *)
Theorem isEasternDST_between_sundays (year month day : Z) :
  -271821 < year < 275760 -> 1 <= day <= 31 ->
  _isEasternDST year month day = true <->
  (month = 2 /\ (2 <= sundaysUpTo year 2 day)%nat) \/
  2 < month < 10 \/
  (month = 10 /\ sundaysUpTo year 10 day = 0%nat).
Proof.
  intros Hy Hd.
  assert (Hmarch : (day >=? _getNthSunday year 2 2) = (2 <=? sundaysUpTo year 2 day)%nat).
  { unfold _getNthSunday. rewrite (getNthSunday_for_loopFrom year 2 2 Hy) by lia.
    rewrite sundaysUpTo_sundaysFrom.
    replace (daysInMonth (InLeapYear (MakeFullYear year)) 2) with 31
      by (unfold daysInMonth; change (monthStart ?l (2 + 1)) with (90 + l);
          change (monthStart ?l 2) with (59 + l); lia).
    pose proof (WeekDay_range (MakeDay (MakeFullYear year) 2 1)) as Hw.
    pose proof (forallb_seqZ _ _ _ (WeekDay (MakeDay (MakeFullYear year) 2 1))
                  isEasternDST_table ltac:(lia)) as H'.
    cbv beta in H'.
    pose proof (forallb_seqZ _ _ _ day H' ltac:(lia)) as H''. cbv beta in H''.
    apply andb_true_iff in H'' as [H'' _]. apply bool_decide_eq_true in H''. exact H''. }
  assert (Hnov : (day <? _getNthSunday year 10 1) = (sundaysUpTo year 10 day =? 0)%nat).
  { unfold _getNthSunday. rewrite (getNthSunday_for_loopFrom year 10 1 Hy) by lia.
    rewrite sundaysUpTo_sundaysFrom.
    replace (daysInMonth (InLeapYear (MakeFullYear year)) 10) with 30
      by (unfold daysInMonth; change (monthStart ?l (10 + 1)) with (334 + l);
          change (monthStart ?l 10) with (304 + l); lia).
    pose proof (WeekDay_range (MakeDay (MakeFullYear year) 10 1)) as Hw.
    pose proof (forallb_seqZ _ _ _ (WeekDay (MakeDay (MakeFullYear year) 10 1))
                  isEasternDST_table ltac:(lia)) as H'.
    cbv beta in H'.
    pose proof (forallb_seqZ _ _ _ day H' ltac:(lia)) as H''. cbv beta in H''.
    apply andb_true_iff in H'' as [_ H'']. apply bool_decide_eq_true in H''. exact H''. }
  unfold _isEasternDST. rewrite Hmarch, Hnov.
  generalize (sundaysUpTo year 2 day) (sundaysUpTo year 10 day). intros a b.
  destruct (month <? 2) eqn:E1; [apply Z.ltb_lt in E1|apply Z.ltb_ge in E1];
  destruct (month >? 10) eqn:E2; cbn [orb];
    try (split; [discriminate | lia]);
    rewrite Z.gtb_ltb in E2; apply Z.ltb_ge in E2.
  destruct (month >? 2) eqn:E3; [rewrite Z.gtb_ltb in E3; apply Z.ltb_lt in E3
                                |rewrite Z.gtb_ltb in E3; apply Z.ltb_ge in E3];
  destruct (month <? 10) eqn:E4; [apply Z.ltb_lt in E4 | apply Z.ltb_ge in E4
                                 |apply Z.ltb_lt in E4 | apply Z.ltb_ge in E4]; cbn [andb].
  - split; [intros _; lia | reflexivity].
  - assert (month = 10) by lia. subst month.
    change (10 =? 2) with false. change (10 =? 10) with true. cbv iota.
    rewrite Nat.eqb_eq. split; [intros; right; right; split; [reflexivity | assumption]|].
    intros [[? _] | [? | [_ ?]]]; [lia | lia | assumption].
  - assert (month = 2) by lia. subst month.
    change (2 =? 2) with true. cbv iota.
    rewrite Nat.leb_le. split; [intros; left; split; [reflexivity | assumption]|].
    intros [[_ ?] | [? | [? _]]]; [assumption | lia | lia].
  - lia.
Qed.

(** 8 March 2026, the second Sunday of March, is in daylight time. *)
Lemma isEasternDST_between_sundays_witness :
  _isEasternDST 2026 2 8 = true /\ sundaysUpTo 2026 2 8 = 2%nat /\
  sundaysUpTo 2026 2 7 = 1%nat.
Proof.
  split; [|split; reflexivity].
  apply (proj2 (isEasternDST_between_sundays 2026 2 8 ltac:(lia) ltac:(lia))).
  left. split; [reflexivity|]. apply Nat.leb_le. reflexivity.
Defined.

End EasternTimeFacts.

(** ** The unsubscribe button and the sender line *)

Section CardActionsFacts.
Import EmailCard CardActions.

Lemma hasHttpScheme_https (rest : jsstring) : hasHttpScheme (str "https://" ++ rest) = true.
Proof. reflexivity. Qed.

(** Whatever [handleUnsubscribe] opens starts with "http://" or "https://"
    (letters in either case) and has the protocol [http:] or [https:] for the
    URL parser; it is the trimmed [unsubscribeUrl], with "https:" in front of
    it when that starts with "//", and with "https://" in front of it when
    it has no scheme and does not start with "/". *)
Theorem handleUnsubscribe_opens_http_only
    (URL_protocol : jsstring -> option jsstring) (unsubscribeUrl : option jsstring)
    (url : jsstring) :
  handleUnsubscribe URL_protocol unsubscribeUrl = Opened url ->
  hasHttpScheme url = true /\
  (URL_protocol url = Some (str "http:") \/ URL_protocol url = Some (str "https:")) /\
  exists given, unsubscribeUrl = Some given /\
    (url = trim given /\ hasHttpScheme (trim given) = true
     \/ url = str "https:" ++ trim given /\ startsWith (trim given) (str "//") = true
     \/ url = str "https://" ++ trim given /\ startsWith (trim given) (str "/") = false).
Proof.
  unfold handleUnsubscribe. destruct unsubscribeUrl as [[|c u]|]; try discriminate.
  set (t := trim (c :: u)).
  assert (Hopen : forall url0,
            match URL_protocol url0 with
            | Some protocol =>
                if eqs protocol (str "http:") || eqs protocol (str "https:")
                then Opened url0 else InvalidProtocol url0
            | None => InvalidUrl url0
            end = Opened url ->
            url0 = url /\
            (URL_protocol url = Some (str "http:") \/ URL_protocol url = Some (str "https:"))).
  { intros url0 H. destruct (URL_protocol url0) as [protocol|] eqn:Hp; [|discriminate].
    destruct (eqs protocol (str "http:")) eqn:E1.
    - simpl in H. injection H as <-. apply bool_decide_eq_true in E1. subst. auto.
    - destruct (eqs protocol (str "https:")) eqn:E2; [|discriminate].
      simpl in H. injection H as <-. apply bool_decide_eq_true in E2. subst. auto. }
  destruct (hasHttpScheme t) eqn:Hs; cbn [negb].
  - intros H. apply Hopen in H as [<- Hp]. split; [exact Hs|]. split; [exact Hp|].
    exists (c :: u). split; [reflexivity|]. left. split; [reflexivity | exact Hs].
  - destruct (startsWith t (str "//")) eqn:H2.
    + intros H. apply Hopen in H as [<- Hp].
      destruct (startsWith_app _ _ H2) as [r Hr]. split; [rewrite Hr; reflexivity|].
      split; [exact Hp|]. exists (c :: u). split; [reflexivity|]. right. left.
      split; [reflexivity | exact H2].
    + destruct (startsWith t (str "/")) eqn:H1; [discriminate|].
      intros H. apply Hopen in H as [<- Hp]. split; [apply hasHttpScheme_https|].
      split; [exact Hp|]. exists (c :: u). split; [reflexivity|]. right. right.
      split; [reflexivity | exact H1].
Qed.

(** A URL without a scheme, with blanks around it: "https://" is put in
    front of the trimmed text. *)
Lemma handleUnsubscribe_opens_http_only_witness :
  handleUnsubscribe (fun _ => Some (str "https:")) (Some (str " example.com/u?id=1 "))
  = Opened (str "https://example.com/u?id=1") /\
  hasHttpScheme (str "https://example.com/u?id=1") = true.
Proof.
  split; [reflexivity|].
  apply (handleUnsubscribe_opens_http_only (fun _ => Some (str "https:"))
           (Some (str " example.com/u?id=1 ")) (str "https://example.com/u?id=1")).
  reflexivity.
Defined.

(** *** The sender line *)

Lemma eatThroughGt_address (addr rest : jsstring) :
  Forall (fun c => c <> 62%N) addr -> eatThroughGt (addr ++ 62%N :: rest) = Some rest.
Proof.
  induction 1 as [|c addr Hc _ IH]; [reflexivity|].
  simpl. apply N.eqb_neq in Hc. rewrite Hc. exact IH.
Qed.

Lemma removeTags_name_address (name addr : jsstring) (fuel : nat) :
  Forall (fun c => c <> 60%N) name -> addr <> [] -> Forall (fun c => c <> 62%N) addr ->
  length name < fuel ->
  removeTags fuel (name ++ 60%N :: addr ++ [62%N]) = name.
Proof.
  intros Hname Haddr Hgt. revert fuel.
  induction Hname as [|c name Hc _ IH]; intros fuel Hfuel.
  - destruct fuel as [|fuel]; [simpl in Hfuel; lia|]. simpl.
    destruct addr as [|a addr]; [contradiction|]. inversion Hgt as [|? ? Ha Hgt']; subst.
    simpl. apply N.eqb_neq in Ha. rewrite Ha.
    rewrite (eatThroughGt_address addr [] Hgt'). destruct fuel; reflexivity.
  - destruct fuel as [|fuel]; [simpl in Hfuel; lia|]. simpl.
    apply N.eqb_neq in Hc. rewrite Hc. f_equal. apply IH. simpl in Hfuel. lia.
Qed.

(** For a sender of the form name <address> (no [<] in the name, a non-empty
    address without [>]) EmailViewer shows the trimmed name, which is empty
    when there is no name; EmailCard shows the trimmed name too, and the
    whole sender when there is no name. *)
Theorem sender_name_and_address (name addr : jsstring) :
  Forall (fun c => c <> 60%N) name -> addr <> [] -> Forall (fun c => c <> 62%N) addr ->
  displaySender (Some (name ++ str "<" ++ addr ++ str ">")) = trim name /\
  cardSender (Some (name ++ str "<" ++ addr ++ str ">"))
  = Some (if bool_decide (trim name = []) then name ++ str "<" ++ addr ++ str ">"
          else trim name).
Proof.
  intros Hname Haddr Hgt.
  assert (Hstrip : stripTags (name ++ str "<" ++ addr ++ str ">") = name).
  { unfold stripTags. apply removeTags_name_address; try assumption.
    rewrite length_app. simpl. lia. }
  unfold displaySender, cardSender.
  destruct (name ++ str "<" ++ addr ++ str ">") as [|c s] eqn:E.
  { destruct name; discriminate. }
  rewrite Hstrip. split; [reflexivity|].
  destruct (trim name) as [|d shown]; reflexivity.
Qed.

Lemma sender_name_and_address_witness :
  displaySender (Some (str "Alice Smith " ++ str "<" ++ str "alice@example.com" ++ str ">"))
  = trim (str "Alice Smith ") /\
  cardSender (Some (str "Alice Smith " ++ str "<" ++ str "alice@example.com" ++ str ">"))
  = Some (if bool_decide (trim (str "Alice Smith ") = [])
          then str "Alice Smith " ++ str "<" ++ str "alice@example.com" ++ str ">"
          else trim (str "Alice Smith ")).
Proof.
  apply (sender_name_and_address (str "Alice Smith ") (str "alice@example.com")).
  - repeat constructor; discriminate.
  - discriminate.
  - repeat constructor; discriminate.
Defined.

End CardActionsFacts.

(** ** More on the sanitiser of EmailCard *)

Section SanitizerMore.
Import EmailCard.

(** An element without child elements that [removeEmptyElements] keeps has
    text that is not blank, or is a BR or an HR. *)
Local Abbreviation filled e :=
  (children e = [] ->
   trim (textContent e) <> [] \/ tagName e = str "BR" \/ tagName e = str "HR").

Lemma no_children_no_descendants (cs : list Node) :
  filter (fun c => isElement c = true) cs = [] -> querySelectorAllStar cs = [].
Proof.
  unfold querySelectorAllStar. induction cs as [|c cs IH]; [reflexivity|].
  rewrite filter_cons. destruct c as [d|d|h ln attrs cs'|attrs c']; simpl.
  - exact IH.
  - exact IH.
  - discriminate.
  - discriminate.
Qed.

Lemma isEmptyElement_filled (h : bool) (ln : jsstring) attrs cs :
  isEmptyElement (Element h ln attrs cs) = false -> filled (Element h ln attrs cs).
Proof.
  intros He Hch.
  destruct (trim (textContent (Element h ln attrs cs))) as [|c t] eqn:Et; [|left; discriminate].
  right.
  destruct (eqs (tagName (Element h ln attrs cs)) (str "BR")) eqn:Eb;
    [left; apply eqs_true; exact Eb|].
  destruct (eqs (tagName (Element h ln attrs cs)) (str "HR")) eqn:Eh;
    [right; apply eqs_true; exact Eh|].
  exfalso. revert He. unfold isEmptyElement. rewrite Et, Eb, Eh, Hch.
  unfold querySelector. simpl in Hch. rewrite (no_children_no_descendants cs Hch).
  discriminate.
Qed.

Lemma removeEmptyNode_filled (n : Node) :
  Forall (fun e => filled e) (flat_map descendantsOf (removeEmptyNode n)).
Proof.
  induction n as [d|d|h ln attrs cs IH|attrs c] using Node_forall_ind.
  - constructor.
  - constructor.
  - simpl removeEmptyNode. destruct (isEmptyElement _) eqn:He; [constructor|].
    simpl. rewrite app_nil_r. constructor; [exact (isEmptyElement_filled _ _ _ _ He)|].
    apply Forall_flat_map_twice. exact IH.
  - rewrite removeEmptyNode_template. constructor.
Qed.

Lemma cleanElements_textContent cleanStyle (n : Node) :
  textContent (cleanElements cleanStyle n) = textContent n.
Proof.
  induction n as [d|d|h ln attrs cs IH|attrs c] using Node_forall_ind; try reflexivity.
  simpl. induction IH as [|c cs Hc _ IHcs]; [reflexivity|].
  simpl. rewrite Hc, IHcs. reflexivity.
Qed.

Lemma cleanElements_isElement cleanStyle (n : Node) :
  isElement (cleanElements cleanStyle n) = isElement n.
Proof. destruct n; reflexivity. Qed.

Lemma cleanElements_children cleanStyle (n : Node) :
  children (cleanElements cleanStyle n) = map (cleanElements cleanStyle) (children n).
Proof.
  destruct n as [d|d|h ln attrs cs|attrs c]; try reflexivity.
  simpl. induction cs as [|c cs IH]; [reflexivity|].
  simpl map. rewrite !filter_cons, cleanElements_isElement.
  destruct (decide (isElement c = true)); simpl; rewrite IH; reflexivity.
Qed.

Lemma cleanElements_tagName cleanStyle (n : Node) :
  tagName (cleanElements cleanStyle n) = tagName n.
Proof. destruct n as [d|d|[|] ln attrs cs|attrs c]; reflexivity. Qed.

Lemma cleanElements_filled cleanStyle (n : Node) :
  Forall (fun e => filled e) (descendantsOf n) ->
  Forall (fun e => filled e) (descendantsOf (cleanElements cleanStyle n)).
Proof.
  induction n as [d|d|h ln attrs cs IH|attrs c] using Node_forall_ind; intros H.
  - constructor.
  - constructor.
  - simpl in H. inversion H as [|? ? Hq Hcs]; subst.
    change (descendantsOf (cleanElements cleanStyle (Element h ln attrs cs)))
      with (cleanElements cleanStyle (Element h ln attrs cs)
            :: flat_map descendantsOf (map (cleanElements cleanStyle) cs)).
    constructor.
    + rewrite cleanElements_children, cleanElements_textContent, cleanElements_tagName.
      intros Hch. apply Hq. destruct (children (Element h ln attrs cs)); [reflexivity|discriminate].
    + rewrite flat_map_concat_map, map_map, <- flat_map_concat_map.
      apply Forall_flat_map_2. apply (Forall_mp _ _ _ IH).
      apply Forall_flat_map_1. exact Hcs.
  - simpl. simpl in H. inversion H as [|? ? Hq _]; subst.
    constructor; [|constructor]. intros _. apply Hq. reflexivity.
Qed.

Lemma sanitizeDom_filled cleanStyle (nodes : list Node) :
  Forall (fun e => filled e) (querySelectorAllStar (sanitizeDom cleanStyle nodes)).
Proof.
  unfold sanitizeDom, querySelectorAllStar.
  rewrite flat_map_concat_map, map_map, <- flat_map_concat_map.
  apply Forall_flat_map_2, Forall_forall. intros n Hn. apply cleanElements_filled.
  revert n Hn. apply Forall_forall. apply Forall_flat_map_1.
  apply Forall_flat_map_twice, Forall_forall. intros n _. apply removeEmptyNode_filled.
Qed.

(** After the DOM steps of [sanitizeHtml] every element without child
    elements has text that is not blank, or is a BR or an HR; so no element
    without child nodes is left but BR and HR, and in particular no [img]
    element as the parser makes it, with whatever attributes: the images of
    the email are removed, also where only an image fills a link or a
    paragraph. *)
Theorem sanitizeDom_leaves_no_image (cleanStyle : jsstring -> jsstring) (nodes : list Node) :
  Forall (fun e => children e = [] ->
                   trim (textContent e) <> [] \/ tagName e = str "BR" \/ tagName e = str "HR")
         (querySelectorAllStar (sanitizeDom cleanStyle nodes)) /\
  Forall (fun e => forall h attrs, e <> Element h (str "img") attrs [])
         (querySelectorAllStar (sanitizeDom cleanStyle nodes)) /\
  (forall href attrs,
     sanitizeDom cleanStyle
       [Element true (str "p") []
          [Element true (str "a") [(str "href", href)] [Element true (str "img") attrs []]]]
     = []).
Proof.
  pose proof (sanitizeDom_filled cleanStyle nodes) as H.
  split; [exact H|]. split.
  - eapply Forall_impl; [exact H|]. intros e He h attrs ->.
    destruct (He eq_refl) as [Ht|[Hb|Hh]].
    + apply Ht. reflexivity.
    + destruct h; discriminate.
    + destruct h; discriminate.
  - intros href attrs. reflexivity.
Qed.

Lemma dropWhitespace_snoc (s : jsstring) (x : N) :
  isJsWhitespace x = false -> dropWhitespace (s ++ [x]) <> [].
Proof.
  intros Hx. induction s as [|y s IH]; simpl.
  - rewrite Hx. discriminate.
  - destruct (isJsWhitespace y); [exact IH | discriminate].
Qed.

(** Text that starts with a character that is no white space is not blank. *)
Lemma trim_nonblank (c : N) (text : jsstring) :
  isJsWhitespace c = false -> trim (c :: text) <> [].
Proof.
  intros Hc. unfold trim. cbn [dropWhitespace]. rewrite Hc, reverse_cons.
  intros Hnil. apply (f_equal length) in Hnil. rewrite length_reverse in Hnil.
  pose proof (dropWhitespace_snoc (reverse text) c Hc) as Hd.
  destruct (dropWhitespace (reverse text ++ [c])); [contradiction | discriminate].
Qed.

(** *** Attributes that stay *)

Lemma getAttribute_removeAttribute name name' (attrs : list (jsstring * jsstring)) :
  name <> name' -> getAttribute name (removeAttribute name' attrs) = getAttribute name attrs.
Proof.
  intros Hne. induction attrs as [|[k v] attrs IH]; [reflexivity|]. simpl.
  destruct (eqs k name') eqn:E1.
  - apply eqs_true in E1. subst k.
    destruct (eqs name' name) eqn:E2; [apply eqs_true in E2; congruence | reflexivity].
  - simpl. rewrite IH. reflexivity.
Qed.

Lemma getAttribute_setAttribute name name' value (attrs : list (jsstring * jsstring)) :
  name <> name' -> getAttribute name (setAttribute name' value attrs) = getAttribute name attrs.
Proof.
  intros Hne. induction attrs as [|[k v] attrs IH]; simpl.
  - destruct (eqs name' name) eqn:E; [apply eqs_true in E; congruence | reflexivity].
  - destruct (eqs k name') eqn:E1; simpl.
    + apply eqs_true in E1. subst k.
      destruct (eqs name' name) eqn:E2; [apply eqs_true in E2; congruence | reflexivity].
    + rewrite IH. reflexivity.
Qed.

Lemma getAttribute_dropDangerous name (cur : list (jsstring * jsstring)) attr :
  dangerousName name = false -> name <> str "javascript" ->
  getAttribute name (dropDangerous cur attr) = getAttribute name cur.
Proof.
  intros Hd Hjs. unfold dropDangerous. unfold dangerousName in Hd.
  apply orb_false_iff in Hd as [Hd Hid]. apply orb_false_iff in Hd as [Hon Hclass].
  apply eqs_false in Hid, Hclass.
  destruct (eqs (fst attr) (str "id")) eqn:E3;
    [rewrite getAttribute_removeAttribute by congruence|];
  (destruct (eqs (fst attr) (str "class")) eqn:E2;
    [rewrite getAttribute_removeAttribute by congruence|]);
  (destruct (startsWith (fst attr) (str "on") || eqs (fst attr) (str "javascript")) eqn:E1;
    [|reflexivity]);
  apply getAttribute_removeAttribute; intros ->; rewrite Hon in E1; simpl in E1;
    apply eqs_true in E1; congruence.
Qed.

Lemma getAttribute_fold_dropDangerous name (snapshot cur : list (jsstring * jsstring)) :
  dangerousName name = false -> name <> str "javascript" ->
  getAttribute name (fold_left dropDangerous snapshot cur) = getAttribute name cur.
Proof.
  intros Hd Hjs. revert cur. induction snapshot as [|attr snapshot IH]; intros cur;
    [reflexivity|].
  simpl. rewrite IH. apply getAttribute_dropDangerous; assumption.
Qed.

(** [sanitizeHtml] leaves every attribute as it is whose name does not start
    with "on" and is none of javascript, class, id, style and loading: the
    value of an [href] or a [src] is never looked at.  So a link with text
    goes through unchanged, whatever its [href] is. *)
Theorem cleanAttributes_keeps_other_attributes
    (cleanStyle : jsstring -> jsstring) (isImg : bool) (attrs : list (jsstring * jsstring))
    (name : jsstring) :
  dangerousName name = false ->
  name <> str "javascript" -> name <> str "style" -> name <> str "loading" ->
  getAttribute name (cleanAttributes cleanStyle isImg attrs) = getAttribute name attrs /\
  (forall href c text,
     isJsWhitespace c = false ->
     sanitizeDom cleanStyle
       [Element true (str "a") [(str "href", href)] [TextNode (c :: text)]]
     = [Element true (str "a") [(str "href", href)] [TextNode (c :: text)]]).
Proof.
  intros Hd Hjs Hstyle Hloading. split.
  - unfold cleanAttributes. cbv zeta.
    match goal with
    | |- getAttribute _ (match getAttribute _ ?a with _ => _ end) = _ => set (a1 := a)
    end.
    assert (H1 : getAttribute name a1 = getAttribute name attrs).
    { subst a1. destruct isImg.
      - rewrite !getAttribute_setAttribute by congruence.
        apply getAttribute_fold_dropDangerous; assumption.
      - apply getAttribute_fold_dropDangerous; assumption. }
    destruct (getAttribute (str "style") a1); [|exact H1].
    destruct (0 <? length _).
    + rewrite getAttribute_setAttribute by congruence. exact H1.
    + rewrite getAttribute_removeAttribute by congruence. exact H1.
  - intros href c text Hc. unfold sanitizeDom, removeAllIn, removeEmptyElements.
    cbn [flat_map removeAll app]. change (eqs (str "a") (str "script")) with false.
    cbn iota. cbn [flat_map removeAll app]. change (eqs (str "a") (str "style")) with false.
    cbn iota. cbn [flat_map removeEmptyNode app].
    assert (He : isEmptyElement (Element true (str "a") [(str "href", href)]
                                         [TextNode (c :: text)]) = false).
    { unfold isEmptyElement. cbn [textContent flat_map app].
      rewrite app_nil_r.
      pose proof (trim_nonblank c text Hc) as Ht.
      destruct (trim (c :: text)); [contradiction|]. reflexivity. }
    rewrite He. reflexivity.
Qed.

(** A link with an event handler and a javascript: URL keeps the URL. *)
Lemma cleanAttributes_keeps_other_attributes_witness :
  getAttribute (str "href")
    (cleanAttributes (fun style => style) false
       [(str "onclick", str "x"); (str "href", str "javascript:alert(1)")])
  = getAttribute (str "href")
      [(str "onclick", str "x"); (str "href", str "javascript:alert(1)")].
Proof.
  apply (proj1 (cleanAttributes_keeps_other_attributes (fun style => style) false
                  [(str "onclick", str "x"); (str "href", str "javascript:alert(1)")]
                  (str "href") eq_refl
                  ltac:(discriminate) ltac:(discriminate) ltac:(discriminate))).
Defined.

End SanitizerMore.

(** ** What the dashboard shows *)

Section DashboardMore.
Import Dashboard.
Local Open Scope Z_scope.





End DashboardMore.

(** ** Decoding what the Gmail API encodes *)

Section RoundTrip.
Import GmailEncoding.
Local Open Scope N_scope.

Lemma lor_shiftl_small (x y k : N) : y < 2 ^ k -> N.lor (N.shiftl x k) y = x * 2 ^ k + y.
Proof.
  intros Hy.
  assert (Hland : N.land (N.shiftl x k) y = 0).
  { apply N.bits_inj. intros m. rewrite N.land_spec, N.bits_0.
    destruct (N.lt_ge_cases m k) as [Hm|Hm].
    - rewrite N.shiftl_spec_low by exact Hm. reflexivity.
    - destruct (N.eq_dec y 0) as [->|Hy0]; [rewrite N.bits_0; apply andb_false_r|].
      rewrite (N.bits_above_log2 y m), andb_false_r; [reflexivity|].
      apply N.lt_le_trans with k; [|exact Hm]. apply N.log2_lt_pow2; [lia | exact Hy]. }
  rewrite <- N.lxor_lor by exact Hland. rewrite <- N.add_nocarry_lxor by exact Hland.
  rewrite N.shiftl_mul_pow2. reflexivity.
Qed.

Lemma land_mod (x : N) (k : N) : N.land x (N.ones k) = x mod 2 ^ k.
Proof. apply N.land_ones. Qed.

Ltac to_arith :=
  change 3 with (N.ones 2) in *; change 15 with (N.ones 4) in *;
  change 63 with (N.ones 6) in *; change 255 with (N.ones 8) in *;
  rewrite ?land_mod, ?N.shiftr_div_pow2, ?N.shiftl_mul_pow2 in *.


Lemma div_mod_parts (x d : N) : d <> 0 -> x = d * (x / d) + x mod d /\ x mod d < d.
Proof. intros Hd. split; [apply N.div_mod, Hd | apply N.mod_lt, Hd]. Qed.

Lemma lor_mul_small (x y k p : N) : p = 2 ^ k -> y < p -> N.lor (x * p) y = x * p + y.
Proof. intros -> Hy. rewrite <- (lor_shiftl_small x y k Hy), N.shiftl_mul_pow2. reflexivity. Qed.

Ltac pow_consts :=
  change (2 ^ 2) with 4 in *; change (2 ^ 4) with 16 in *; change (2 ^ 6) with 64 in *;
  change (2 ^ 8) with 256 in *; change (2 ^ 10) with 1024 in *;
  change (2 ^ 12) with 4096 in *; change (2 ^ 16) with 65536 in *;
  change (2 ^ 18) with 262144 in *.

(** The four sextets of three bytes, put together again. *)
Lemma sextets_word (a b c : N) :
  a < 256 -> b < 256 -> c < 256 ->
  N.lor (N.shiftl (N.shiftr a 2) 18)
    (N.lor (N.shiftl (N.lor (N.shiftl (N.land a 3) 4) (N.shiftr b 4)) 12)
       (N.lor (N.shiftl (N.lor (N.shiftl (N.land b 15) 2) (N.shiftr c 6)) 6) (N.land c 63)))
  = a * 65536 + b * 256 + c.
Proof.
  intros Ha Hb Hc. to_arith. pow_consts.
  destruct (div_mod_parts a 4) as [Ea Ha0]; [discriminate|].
  destruct (div_mod_parts b 16) as [Eb Hb0]; [discriminate|].
  destruct (div_mod_parts c 64) as [Ec Hc0]; [discriminate|].
  set (a1 := a / 4) in *. set (a0 := a mod 4) in *.
  set (b1 := b / 16) in *. set (b0 := b mod 16) in *.
  set (c1 := c / 64) in *. set (c0 := c mod 64) in *.
  clearbody a1 a0 b1 b0 c1 c0.
  rewrite (lor_mul_small a0 b1 4 16) by (reflexivity || lia).
  rewrite (lor_mul_small b0 c1 2 4) by (reflexivity || lia).
  rewrite (lor_mul_small _ c0 6 64) by (reflexivity || lia).
  rewrite (lor_mul_small _ _ 12 4096) by (reflexivity || lia).
  rewrite (lor_mul_small _ _ 18 262144) by (reflexivity || lia).
  lia.
Qed.

Lemma word_bytes (a b c : N) :
  a < 256 -> b < 256 -> c < 256 ->
  N.land (N.shiftr (a * 65536 + b * 256 + c) 16) 255 = a /\
  N.land (N.shiftr (a * 65536 + b * 256 + c) 8) 255 = b /\
  N.land (a * 65536 + b * 256 + c) 255 = c.
Proof.
  intros Ha Hb Hc. to_arith. pow_consts.
  assert (H1 : (a * 65536 + b * 256 + c) / 65536 = a).
  { symmetry. apply (N.div_unique _ _ _ (b * 256 + c)); lia. }
  assert (H2 : (a * 65536 + b * 256 + c) / 256 = a * 256 + b).
  { symmetry. apply (N.div_unique _ _ _ c); lia. }
  rewrite H1, H2. split; [apply N.mod_small; lia|]. split.
  - symmetry. apply (N.mod_unique _ _ a); lia.
  - symmetry. apply (N.mod_unique _ _ (a * 256 + b)); lia.
Qed.


Lemma sextets_word2 (a b : N) :
  a < 256 -> b < 256 ->
  N.lor (N.shiftl (N.shiftr a 2) 12)
    (N.lor (N.shiftl (N.lor (N.shiftl (N.land a 3) 4) (N.shiftr b 4)) 6)
       (N.shiftl (N.land b 15) 2))
  = a * 1024 + b * 4.
Proof.
  intros Ha Hb. to_arith. pow_consts.
  destruct (div_mod_parts a 4) as [Ea Ha0]; [discriminate|].
  destruct (div_mod_parts b 16) as [Eb Hb0]; [discriminate|].
  set (a1 := a / 4) in *. set (a0 := a mod 4) in *.
  set (b1 := b / 16) in *. set (b0 := b mod 16) in *.
  clearbody a1 a0 b1 b0.
  rewrite (lor_mul_small a0 b1 4 16) by (reflexivity || lia).
  rewrite (lor_mul_small _ (b0 * 4) 6 64) by (reflexivity || lia).
  rewrite (lor_mul_small _ _ 12 4096) by (reflexivity || lia).
  lia.
Qed.

Lemma word_bytes2 (a b : N) :
  a < 256 -> b < 256 ->
  N.land (N.shiftr (a * 1024 + b * 4) 10) 255 = a /\
  N.land (N.shiftr (a * 1024 + b * 4) 2) 255 = b.
Proof.
  intros Ha Hb. to_arith. pow_consts.
  assert (H1 : (a * 1024 + b * 4) / 1024 = a).
  { symmetry. apply (N.div_unique _ _ _ (b * 4)); lia. }
  assert (H2 : (a * 1024 + b * 4) / 4 = a * 256 + b).
  { symmetry. apply (N.div_unique _ _ _ 0); lia. }
  rewrite H1, H2. split; [apply N.mod_small; lia|].
  symmetry. apply (N.mod_unique _ _ a); lia.
Qed.

Lemma sextets_word1 (a : N) :
  a < 256 ->
  N.land (N.shiftr (N.lor (N.shiftl (N.shiftr a 2) 6) (N.shiftl (N.land a 3) 4)) 4) 255 = a.
Proof.
  intros Ha. to_arith. pow_consts.
  destruct (div_mod_parts a 4) as [Ea Ha0]; [discriminate|].
  set (a1 := a / 4) in *. set (a0 := a mod 4) in *. clearbody a1 a0.
  rewrite (lor_mul_small _ (a0 * 16) 6 64) by (reflexivity || lia).
  assert (H1 : (a1 * 64 + a0 * 16) / 16 = a).
  { symmetry. apply (N.div_unique _ _ _ 0); lia. }
  rewrite H1. apply N.mod_small. lia.
Qed.

Lemma sextet_bounds (a b : N) :
  a < 256 -> b < 256 ->
  N.shiftr a 2 < 64 /\ N.lor (N.shiftl (N.land a 3) 4) (N.shiftr b 4) < 64 /\
  N.lor (N.shiftl (N.land a 15) 2) (N.shiftr b 6) < 64 /\ N.land a 63 < 64 /\
  N.shiftl (N.land a 15) 2 < 64 /\ N.shiftl (N.land a 3) 4 < 64.
Proof.
  intros Ha Hb. to_arith. pow_consts.
  destruct (div_mod_parts a 4) as [Ea Ha0]; [discriminate|].
  destruct (div_mod_parts a 16) as [Ea' Ha0']; [discriminate|].
  destruct (div_mod_parts a 64) as [Ea'' Ha0'']; [discriminate|].
  destruct (div_mod_parts b 16) as [Eb Hb0]; [discriminate|].
  destruct (div_mod_parts b 64) as [Eb' Hb0']; [discriminate|].
  set (a4 := a / 4) in *. set (a04 := a mod 4) in *.
  set (a16 := a / 16) in *. set (a016 := a mod 16) in *.
  set (a64 := a / 64) in *. set (a064 := a mod 64) in *.
  set (b16 := b / 16) in *. set (b016 := b mod 16) in *.
  set (b64 := b / 64) in *. set (b064 := b mod 64) in *.
  clearbody a4 a04 a16 a016 a64 a064 b16 b016 b64 b064.
  rewrite (lor_mul_small a04 b16 4 16) by (reflexivity || lia).
  rewrite (lor_mul_small a016 b64 2 4) by (reflexivity || lia).
  repeat split; lia.
Qed.


(** Induction on a list of bytes three at a time. *)
Lemma bytes_ind3 (P : list N -> Prop) :
  P [] -> (forall a, P [a]) -> (forall a b, P [a; b]) ->
  (forall a b c rest, P rest -> P (a :: b :: c :: rest)) ->
  forall bytes, P bytes.
Proof.
  intros H0 H1 H2 H3 bytes.
  assert (H : forall n bytes, (length bytes <= n)%nat -> P bytes).
  { clear bytes. induction n as [|n IH]; intros bytes Hn.
    - destruct bytes; [exact H0 | simpl in Hn; lia].
    - destruct bytes as [|a [|b [|c rest]]]; [exact H0 | apply H1 | apply H2 |].
      apply H3, IH. simpl in Hn. lia. }
  exact (H (length bytes) bytes (le_n _)).
Qed.

Lemma bytesToSextets_cons3 (a b c : N) (rest : list N) :
  bytesToSextets (a :: b :: c :: rest)
  = N.shiftr a 2 :: N.lor (N.shiftl (N.land a 3) 4) (N.shiftr b 4)
    :: N.lor (N.shiftl (N.land b 15) 2) (N.shiftr c 6) :: N.land c 63
    :: bytesToSextets rest.
Proof. reflexivity. Qed.

Lemma sextetsToBytes_cons4 (a b c d : N) (rest : list N) :
  sextetsToBytes (a :: b :: c :: d :: rest)
  = N.land (N.shiftr (N.lor (N.shiftl a 18)
                         (N.lor (N.shiftl b 12) (N.lor (N.shiftl c 6) d))) 16) 255
    :: N.land (N.shiftr (N.lor (N.shiftl a 18)
                           (N.lor (N.shiftl b 12) (N.lor (N.shiftl c 6) d))) 8) 255
    :: N.land (N.lor (N.shiftl a 18) (N.lor (N.shiftl b 12) (N.lor (N.shiftl c 6) d))) 255
    :: sextetsToBytes rest.
Proof. reflexivity. Qed.

(** Decoding the sextets of a byte sequence gives the bytes back. *)
Lemma sextetsToBytes_bytesToSextets (bytes : list N) :
  Forall (fun b => b < 256) bytes -> sextetsToBytes (bytesToSextets bytes) = bytes.
Proof.
  induction bytes as [|a|a b|a b c rest IH] using bytes_ind3; intros Hb.
  - reflexivity.
  - inversion Hb as [|? ? Ha _]; subst.
    change (sextetsToBytes (bytesToSextets [a]))
      with [N.land (N.shiftr (N.lor (N.shiftl (N.shiftr a 2) 6)
                                    (N.shiftl (N.land a 3) 4)) 4) 255].
    rewrite (sextets_word1 a Ha). reflexivity.
  - inversion Hb as [|? ? Ha Hb']; subst. inversion Hb' as [|? ? Hb'' _]; subst.
    change (sextetsToBytes (bytesToSextets [a; b]))
      with [N.land (N.shiftr
                      (N.lor (N.shiftl (N.shiftr a 2) 12)
                         (N.lor (N.shiftl (N.lor (N.shiftl (N.land a 3) 4) (N.shiftr b 4)) 6)
                            (N.shiftl (N.land b 15) 2))) 10) 255;
            N.land (N.shiftr
                      (N.lor (N.shiftl (N.shiftr a 2) 12)
                         (N.lor (N.shiftl (N.lor (N.shiftl (N.land a 3) 4) (N.shiftr b 4)) 6)
                            (N.shiftl (N.land b 15) 2))) 2) 255].
    rewrite (sextets_word2 a b Ha Hb'').
    destruct (word_bytes2 a b Ha Hb'') as [-> ->]. reflexivity.
  - inversion Hb as [|? ? Ha Hb1]; subst. inversion Hb1 as [|? ? Hb2 Hb3]; subst.
    inversion Hb3 as [|? ? Hc Hrest]; subst.
    rewrite bytesToSextets_cons3, sextetsToBytes_cons4, (sextets_word a b c Ha Hb2 Hc).
    destruct (word_bytes a b c Ha Hb2 Hc) as (-> & -> & ->). rewrite (IH Hrest). reflexivity.
Qed.

Lemma bytesToSextets_bounds (bytes : list N) :
  Forall (fun b => b < 256) bytes -> Forall (fun v => v < 64) (bytesToSextets bytes).
Proof.
  induction bytes as [|a|a b|a b c rest IH] using bytes_ind3; intros Hb.
  - constructor.
  - inversion Hb as [|? ? Ha _]; subst.
    destruct (sextet_bounds a a Ha Ha) as (H1 & _ & _ & _ & _ & H6).
    repeat constructor; assumption.
  - inversion Hb as [|? ? Ha Hb']; subst. inversion Hb' as [|? ? Hb'' _]; subst.
    destruct (sextet_bounds a b Ha Hb'') as (H1 & H2 & _).
    destruct (sextet_bounds b b Hb'' Hb'') as (_ & _ & _ & _ & H5 & _).
    repeat constructor; assumption.
  - inversion Hb as [|? ? Ha Hb1]; subst. inversion Hb1 as [|? ? Hb2 Hb3]; subst.
    inversion Hb3 as [|? ? Hc Hrest]; subst.
    rewrite bytesToSextets_cons3.
    destruct (sextet_bounds a b Ha Hb2) as (H1 & H2 & _).
    destruct (sextet_bounds b c Hb2 Hc) as (_ & _ & H3 & _).
    destruct (sextet_bounds c c Hc Hc) as (_ & _ & _ & H4 & _).
    repeat (constructor; [assumption|]). apply IH, Hrest.
Qed.

(** The number of sextets, and the padding that goes with it. *)
Lemma bytesToSextets_length (bytes : list N) :
  (length (bytesToSextets bytes) mod 4 = 0)%nat /\ padding bytes = []
  \/ (length (bytesToSextets bytes) mod 4 = 2)%nat /\ padding bytes = [61; 61]
  \/ (length (bytesToSextets bytes) mod 4 = 3)%nat /\ padding bytes = [61].
Proof.
  induction bytes as [|a|a b|a b c rest IH] using bytes_ind3.
  - left. split; reflexivity.
  - right. left. split; reflexivity.
  - right. right. split; reflexivity.
  - rewrite bytesToSextets_cons3.
    assert (Hl : (length (N.shiftr a 2 :: N.lor (N.shiftl (N.land a 3) 4) (N.shiftr b 4)
                          :: N.lor (N.shiftl (N.land b 15) 2) (N.shiftr c 6) :: N.land c 63
                          :: bytesToSextets rest) mod 4
                  = length (bytesToSextets rest) mod 4)%nat).
    { simpl length.
      replace (S (S (S (S (length (bytesToSextets rest))))))
        with (length (bytesToSextets rest) + 1 * 4)%nat by lia.
      apply Nat.Div0.mod_add. }
    assert (Hp : padding (a :: b :: c :: rest) = padding rest).
    { unfold padding. simpl length.
      replace (S (S (S (length rest)))) with (length rest + 1 * 3)%nat by lia.
      rewrite Nat.Div0.mod_add. reflexivity. }
    rewrite Hl, Hp. exact IH.
Qed.

(** The characters of the alphabet: the decoder's replacement gives the
    standard character, which [atob] reads as the sextet again; none is
    white space or the padding character. *)
Lemma alphabet_table :
  forallb (fun v => bool_decide (b64val (urlToStd (b64urlChar v)) = Some v)
                    && negb (isAsciiWhitespace (urlToStd (b64urlChar v)))
                    && negb (urlToStd (b64urlChar v) =? 61))
          (map N.of_nat (seq 0 64)) = true.
Proof. vm_compute. reflexivity. Qed.

Lemma alphabet (v : N) :
  v < 64 ->
  b64val (urlToStd (b64urlChar v)) = Some v /\
  isAsciiWhitespace (urlToStd (b64urlChar v)) = false /\
  urlToStd (b64urlChar v) <> 61.
Proof.
  intros Hv. pose proof alphabet_table as H. rewrite forallb_forall in H.
  specialize (H v). cbv beta in H.
  assert (Hin : In v (map N.of_nat (seq 0 64))).
  { apply in_map_iff. exists (N.to_nat v). split; [apply N2Nat.id|].
    apply in_seq. lia. }
  specialize (H Hin). rewrite !andb_true_iff, !negb_true_iff in H.
  destruct H as [[H1 H2] H3]. apply bool_decide_eq_true in H1. apply N.eqb_neq in H3.
  auto.
Qed.


Lemma filter_all {X} (P : X -> Prop) `{forall x, Decision (P x)} (l : list X) :
  Forall P l -> filter P l = l.
Proof.
  induction 1 as [|x l Hx _ IH]; [reflexivity|].
  rewrite filter_cons, decide_True by exact Hx. rewrite IH. reflexivity.
Qed.

(** [stripPadding] on text that does not end in [=], and on such text with
    one or two [=] after it. *)
Lemma stripPadding_encoded (chars : jsstring) :
  Forall (fun c => c <> 61) chars ->
  stripPadding chars = chars /\
  stripPadding (chars ++ [61]) = chars /\
  stripPadding (chars ++ [61; 61]) = chars.
Proof.
  intros Hc.
  assert (Hrev : Forall (fun c => c <> 61) (reverse chars)).
  { apply Forall_forall. intros c Hin. apply (proj1 (elem_of_reverse _ _)) in Hin.
    rewrite Forall_forall in Hc. apply Hc, Hin. }
  unfold stripPadding.
  replace (reverse (chars ++ [61])) with (61 :: reverse chars)
    by (rewrite reverse_app; reflexivity).
  replace (reverse (chars ++ [61; 61])) with (61 :: 61 :: reverse chars)
    by (rewrite reverse_app; reflexivity).
  rewrite reverse_involutive.
  destruct (reverse chars) as [|c r]; [repeat split|].
  inversion Hrev as [|? ? Hne _]; subst.
  destruct c as [|p]; [repeat split|].
  do 6 (destruct p as [p|p|]; try (repeat split; fail)).
  all: try (repeat split; fail).
  all: exfalso; apply Hne; reflexivity.
Qed.

Lemma mapM_alphabet (sx : list N) :
  Forall (fun v => v < 64) sx ->
  mapM b64val (map (fun v => urlToStd (b64urlChar v)) sx) = Some sx.
Proof.
  induction 1 as [|v sx Hv _ IH]; [reflexivity|].
  simpl map. change (mapM b64val (?x :: ?l)) with (y ← b64val x; k ← mapM b64val l; mret (y :: k)).
  destruct (alphabet v Hv) as (-> & _). simpl. rewrite IH. reflexivity.
Qed.

(** [atob] on the standard characters of a sequence of sextets with its
    padding. *)
Lemma atob_encoded (sx : list N) (pad : jsstring) :
  Forall (fun v => v < 64) sx ->
  (length sx mod 4 = 0)%nat /\ pad = []
  \/ (length sx mod 4 = 2)%nat /\ pad = [61; 61]
  \/ (length sx mod 4 = 3)%nat /\ pad = [61] ->
  atob (map (fun v => urlToStd (b64urlChar v)) sx ++ pad) = Some (sextetsToBytes sx).
Proof.
  intros Hsx Hpad. set (chars := map (fun v => urlToStd (b64urlChar v)) sx).
  assert (Hws : Forall (fun c => isAsciiWhitespace c = false) chars).
  { apply List.Forall_map. eapply Forall_impl; [exact Hsx|].
    intros v Hv. apply (alphabet v Hv). }
  assert (Hne : Forall (fun c => c <> 61) chars).
  { apply List.Forall_map. eapply Forall_impl; [exact Hsx|].
    intros v Hv. apply (alphabet v Hv). }
  assert (Hlen : length chars = length sx) by apply length_map.
  destruct (stripPadding_encoded chars Hne) as (Hs0 & Hs1 & Hs2).
  assert (Hmap : mapM b64val chars = Some sx) by (apply mapM_alphabet, Hsx).
  unfold atob. cbv zeta. rewrite (filter_all _ (chars ++ pad)).
  2:{ apply Forall_app_2; [exact Hws|].
      destruct Hpad as [[_ ->]|[[_ ->]|[_ ->]]]; repeat constructor. }
  assert (Hz : (length (chars ++ pad) mod 4 = 0)%nat).
  { rewrite length_app, Hlen.
    destruct Hpad as [[Hm ->]|[[Hm ->]|[Hm ->]]]; simpl length.
    - rewrite Nat.add_0_r. exact Hm.
    - rewrite Nat.Div0.add_mod, Hm. reflexivity.
    - rewrite Nat.Div0.add_mod, Hm. reflexivity. }
  rewrite Hz. change (0 =? 0)%nat with true. cbv iota.
  assert (Hstrip : stripPadding (chars ++ pad) = chars).
  { destruct Hpad as [[_ ->]|[[_ ->]|[_ ->]]];
      [rewrite app_nil_r; exact Hs0 | exact Hs2 | exact Hs1]. }
  rewrite Hstrip, Hlen, Hmap.
  assert (H1 : (length sx mod 4 =? 1)%nat = false).
  { apply Nat.eqb_neq. destruct Hpad as [[Hm _]|[[Hm _]|[Hm _]]]; rewrite Hm; discriminate. }
  rewrite H1. reflexivity.
Qed.

(** ASCII bytes are their own UTF-8 decoding. *)
Lemma utf8Decode_ascii (bytes : list N) :
  Forall (fun b => b < 128) bytes -> utf8Decode None bytes = bytes.
Proof.
  induction 1 as [|b bytes Hb _ IH]; [reflexivity|].
  simpl. unfold utf8Lead. rewrite (proj2 (N.leb_le b 127)) by lia. rewrite IH. reflexivity.
Qed.

Lemma textDecode_ascii (bytes : list N) :
  Forall (fun b => b < 128) bytes -> textDecode bytes = bytes.
Proof.
  intros Hb. unfold textDecode. rewrite (utf8Decode_ascii bytes Hb).
  assert (Hcat : concat (map utf16 bytes) = bytes).
  { induction Hb as [|b bytes Hlt _ IH]; [reflexivity|].
    simpl. unfold utf16 at 1. rewrite (proj2 (N.ltb_lt b 65536)) by lia.
    simpl. rewrite IH. reflexivity. }
  destruct bytes as [|c r]; [reflexivity|].
  inversion Hb as [|? ? Hc _]; subst.
  assert (Hbom : c <> 65279) by lia.
  destruct c as [|p]; [exact Hcat|].
  do 16 (destruct p as [p|p|]; try exact Hcat).
  all: try exact Hcat.
  all: exfalso; apply Hbom; reflexivity.
Qed.


(** The text that the decoder hands to [atob] for the encoding of a byte
    sequence, without and with padding. *)
Lemma decodeBase64_encoded (bytes : list N) (pad : jsstring) :
  Forall (fun b => b < 256) bytes -> pad = [] \/ pad = padding bytes ->
  EmailViewer.decodeBase64 (encode bytes ++ pad) = Some (textDecode bytes).
Proof.
  intros Hb Hpad. unfold EmailViewer.decodeBase64. cbv zeta.
  rewrite replace_is_urlToStd. unfold encode. rewrite map_app, map_map.
  set (sx := bytesToSextets bytes).
  set (chars := map (fun v => urlToStd (b64urlChar v)) sx).
  assert (Hsx : Forall (fun v => v < 64) sx) by (apply bytesToSextets_bounds, Hb).
  assert (Hlen : length chars = length sx) by apply length_map.
  pose proof (bytesToSextets_length bytes) as Hcases. fold sx in Hcases.
  assert (Hbytes : toUint8Array (sextetsToBytes sx) = bytes).
  { unfold sx. rewrite (sextetsToBytes_bytesToSextets bytes Hb).
    apply toUint8Array_bytes, Hb. }
  assert (Hgoal : forall p, (length sx mod 4 = 0)%nat /\ p = []
                            \/ (length sx mod 4 = 2)%nat /\ p = [61; 61]
                            \/ (length sx mod 4 = 3)%nat /\ p = [61] ->
            match atob (chars ++ p) with
            | Some binaryString => Some (textDecode (toUint8Array binaryString))
            | None => None
            end = Some (textDecode bytes)).
  { intros p Hp. unfold chars. rewrite (atob_encoded sx p Hsx Hp), Hbytes. reflexivity. }
  destruct Hpad as [->| ->].
  - change (map urlToStd []) with (@nil N). rewrite !app_nil_r, Hlen.
    destruct Hcases as [[Hm _]|[[Hm _]|[Hm _]]]; rewrite Hm.
    + simpl Nat.sub. simpl Nat.eqb. cbv iota.
      specialize (Hgoal [] (or_introl (conj Hm eq_refl))).
      rewrite app_nil_r in Hgoal. exact Hgoal.
    + simpl Nat.sub. simpl Nat.eqb. cbv iota. apply Hgoal. right. left.
      split; [exact Hm | reflexivity].
    + simpl Nat.sub. simpl Nat.eqb. cbv iota. apply Hgoal. right. right.
      split; [exact Hm | reflexivity].
  - assert (Hp : map urlToStd (padding bytes) = padding bytes).
    { destruct Hcases as [[_ ->]|[[_ ->]|[_ ->]]]; reflexivity. }
    rewrite Hp.
    assert (Hz : (length (chars ++ padding bytes) mod 4 = 0)%nat).
    { rewrite length_app, Hlen.
      destruct Hcases as [[Hm ->]|[[Hm ->]|[Hm ->]]]; simpl length.
      - rewrite Nat.add_0_r. exact Hm.
      - rewrite Nat.Div0.add_mod, Hm. reflexivity.
      - rewrite Nat.Div0.add_mod, Hm. reflexivity. }
    rewrite Hz. simpl Nat.sub. simpl Nat.eqb. cbv iota. apply Hgoal. exact Hcases.
Qed.

(** The decoder of both components inverts the encoding of the Gmail API:
    for every byte sequence, the base64url text of the bytes, with or without
    its [=] padding, decodes to the UTF-8 decoding of the bytes, never to
    [null]; for ASCII text that is the text itself. *)
Theorem decodeBase64_round_trip (bytes : list N) :
  Forall (fun b => b < 256) bytes ->
  EmailViewer.decodeBase64 (encode bytes) = Some (textDecode bytes) /\
  EmailViewer.decodeBase64 (encode bytes ++ padding bytes) = Some (textDecode bytes) /\
  EmailCard.decodeHtml (encode bytes) = Some (textDecode bytes) /\
  EmailCard.decodeHtml (encode bytes ++ padding bytes) = Some (textDecode bytes) /\
  (Forall (fun b => b < 128) bytes -> textDecode bytes = bytes).
Proof.
  intros Hb.
  pose proof (decodeBase64_encoded bytes [] Hb (or_introl eq_refl)) as H0.
  rewrite (app_nil_r (encode bytes)) in H0.
  pose proof (decodeBase64_encoded bytes (padding bytes) Hb (or_intror eq_refl)) as H1.
  split; [exact H0|]. split; [exact H1|].
  split; [rewrite decodeHtml_decodeBase64; exact H0|].
  split; [rewrite decodeHtml_decodeBase64; exact H1|].
  apply textDecode_ascii.
Qed.

Lemma decodeBase64_round_trip_witness :
  EmailViewer.decodeBase64 (encode (str "<p>A</p>")) = Some (textDecode (str "<p>A</p>")) /\
  encode (str "<p>A</p>") = str "PHA-QTwvcD4" /\
  padding (str "<p>A</p>") = str "=".
Proof.
  split; [|split; reflexivity].
  apply (proj1 (decodeBase64_round_trip (str "<p>A</p>")
                  ltac:(repeat constructor))).
Defined.

End RoundTrip.

(** ** The model at work on small inputs *)

Example decodeBase64_html :
  EmailViewer.decodeBase64 (str "PHA-QTwvcD4") = Some (str "<p>A</p>").
Proof. reflexivity. Qed.

(** One character too many for base64: [atob] throws, the decoder gives
    [null]. *)
Example decodeBase64_invalid : EmailViewer.decodeBase64 (str "PHA-Q") = None.
Proof. reflexivity. Qed.

(** Bytes that are not UTF-8 become U+FFFD, they are no failure. *)
Example textDecode_replacement : textDecode [195; 40; 226; 130]%N = [65533; 40; 65533]%N.
Proof. reflexivity. Qed.

(** A byte order mark alone decodes to the empty string. *)
Example decodeBase64_bom : EmailViewer.decodeBase64 (str "77u_") = Some [].
Proof. reflexivity. Qed.

(** <div onclick class title><script/><p id style onmouseover>hi</p>
    <img src onerror><br><span> </span><template><script/></template></div>
    keeps the div with its title, the paragraph with its style, and the br. *)
Example sanitizeDom_sample :
  EmailCard.sanitizeDom (fun style => style)
    [EmailCard.Element true (str "div")
       [(str "onclick", str "x"); (str "class", str "c"); (str "title", str "t")]
       [EmailCard.Element true (str "script") [] [EmailCard.TextNode (str "alert(1)")];
        EmailCard.Element true (str "p")
          [(str "id", str "i"); (str "style", str "color:red"); (str "onmouseover", str "z")]
          [EmailCard.TextNode (str "hi")];
        EmailCard.Element true (str "img") [(str "src", str "x"); (str "onerror", str "y")] [];
        EmailCard.Element true (str "br") [] [];
        EmailCard.Element true (str "span") [] [EmailCard.TextNode (str "  ")];
        EmailCard.Template [] [EmailCard.Element true (str "script") [] []]]]
  = [EmailCard.Element true (str "div") [(str "title", str "t")]
       [EmailCard.Element true (str "p") [(str "style", str "color:red")]
          [EmailCard.TextNode (str "hi")];
        EmailCard.Element true (str "br") [] []]].
Proof. vm_compute. reflexivity. Qed.

(** In a browser that leaves [<] and [>] in attribute values as they are, the
    first [replace] takes the start of a title attribute for the end of an
    empty div: the div with the title [></div><script>alert(1)</script>] and
    the text x comes out as a script element and the rest of the markup. *)
Example stripEmptyDivs_attribute_value :
  EmailCard.stripEmptyDivs
    (EmailCard.innerHTML false
       [EmailCard.Element true (str "div")
          [(str "title", str "></div><script>alert(1)</script>")]
          [EmailCard.TextNode (str "x")]])
  = str "<script>alert(1)</script>" ++ [34%N] ++ str ">x</div>".
Proof. vm_compute. reflexivity. Qed.

(** Leading, trailing and repeated empty divs are deleted, a single one in
    the middle stays. *)
Example stripEmptyDivs_sample :
  EmailCard.stripEmptyDivs (str "<div></div> <DIV class=a> </div>a<div></div>b<div></div>")
  = str "a<div></div>b".
Proof. vm_compute. reflexivity. Qed.

(** A 404 response of [/api/dashboard] is shown as the error "HTTP 404". *)
Example dashboard_404 :
  Dashboard.render (Dashboard.load "Unexpected token" (Dashboard.mkResponse 404 None))
  = inl "HTTP 404".
Proof. vm_compute. reflexivity. Qed.
